(** * kur.utils.audiotools: audio feature extraction

    A shallow embedding of [src/kur/utils/audiotools.py]: the signal
    normaliser [scale_signal] and the feature dispatcher
    [get_audio_features] with its spectrogram pipeline (framing, Hann
    window, one-sided FFT, power normalisation, frequency crop, logarithm,
    transposition).

    Number model.
    - Python [int]s are [Z].
    - The quantities that decide array shapes and indices ([frame_size],
      [hop_size], the crop bins) are computed by the interpreter in IEEE-754
      binary64 and then truncated by [int()].  They are modelled exactly, in
      module [B64]: a finite double is an integer multiple of [2^-1074],
      and every operation rounds the exact result to nearest, ties to even.
    - [scale_signal] converts the integer samples to binary64 and divides
      them in binary64; it is modelled in [B64], rounding included, and the
      doubles it returns are carried as the rationals they stand for ([Q]).
    - The sample values that flow through the window, the FFT and the
      normalisation are idealised as real numbers ([R]): numpy's cosine and
      FFT are library code whose rounding is not modelled.  The module's own
      arithmetic on one entry of the power spectrum (lines 226-231) is also
      given in binary64 ([scaled_entry]), which shows where the
      idealisation matters.

    File loading ([load_audio], [load_wav], [load_pydub]) calls external
    libraries (python-magic, scipy, pydub) and the file system.  What these
    answer for a file name is a parameter of the model; the module's own
    part (the table of loaders, the down-mix to mono, the handling and the
    logging of errors) is modelled on top of it.  [audio] is the dictionary
    the loaders return. *)

From Stdlib Require Import ZArith QArith Qreals Reals String List Lia Lra Bool.
Import ListNotations.

Open Scope Z_scope.

(* ================================================================= *)
(** ** IEEE-754 binary64 arithmetic on non-overflowing values *)

Module B64.

(** Precision of the significand, in bits. *)
Definition prec : Z := 53.

(** A finite double is [x * 2^-1074] for an integer [x]; [U] is [1.0]. *)
Definition U : Z := 2 ^ 1074.

(** [rne_pos n d] rounds the non-negative rational [n / d] (counted in
    units of [2^-1074]) to the nearest double, ties to even.  [s] is the
    exponent of the last significand bit of the result's binade; it is
    [0] in the subnormal range. *)
Definition rne_pos (n d : Z) : Z :=
  let q := n / d in
  let s := Z.max 0 (Z.log2 q + 1 - prec) in
  let D := d * 2 ^ s in
  let m := n / D in
  let r := n mod D in
  let up := (D <? 2 * r) || ((D =? 2 * r) && Z.odd m) in
  (if up then m + 1 else m) * 2 ^ s.

(** Rounding is symmetric around zero. *)
Definition rne (n d : Z) : Z :=
  if n <? 0 then - rne_pos (- n) d else rne_pos n d.

(** Conversion of a Python [int] to [float]. *)
Definition of_Z (n : Z) : Z := rne (n * U) 1.

(** The decimal literal [n / d] as the parser reads it. *)
Definition lit (n d : Z) : Z := rne (n * U) d.

Definition mul (x y : Z) : Z := rne (x * y) U.

Definition add (x y : Z) : Z := rne (x + y) 1.

(** Division; the divisors of the program are non-zero. *)
Definition div (x y : Z) : Z :=
  if y <? 0 then rne (- (x * U)) (- y) else rne (x * U) y.

(** [int(x)]: truncation toward zero. *)
Definition to_int (x : Z) : Z := Z.quot x U.

(** Rounding to the nearest integer, a tie going upward:
    the floor of [x + 1/2]. *)
Definition nearest (x : Z) : Z := (2 * x + U) / (2 * U).

(** [x] lies half-way between two integers. *)
Definition is_tie (x : Z) : bool := 2 * (x mod U) =? U.

(** [1 / 128], the grain in which bounds on quotients are counted. *)
Definition grain : Z := 2 ^ 1067.

(** The non-negative doubles: at most [prec] significant bits. *)
Definition representable (y : Z) : Prop :=
  exists m s, 0 <= m < 2 ^ 53 /\ 0 <= s /\ y = m * 2 ^ s.

End B64.

(* ================================================================= *)
(** ** Python values *)

(** The exceptions the module can raise by itself or through numpy. *)
Inductive exn : Type :=
| ValueError (msg : string)
| ZeroDivisionError.

Inductive result (A : Type) : Type :=
| Ok (a : A)
| Raise (e : exn).

Arguments Ok {A} a.
Arguments Raise {A} e.

(** The dictionary returned by [load_audio]. *)
Record audio : Type := mk_audio {
  signal : list Z;
  sample_rate : Z;
  sample_width : Z;
  channels : Z
}.

(** The keyword arguments [get_audio_features] looks up; [None] is a key
    that is absent (or bound to [None]). *)
Record kwargs : Type := mk_kwargs {
  features : option Z;
  low_freq : option Z;
  high_freq : option Z
}.

(** Truth value of an optional integer: [None] and [0] are falsy. *)
Definition truthy (v : option Z) : bool :=
  match v with
  | Some x => negb (x =? 0)
  | None => false
  end.

(** [v or alt] for an integer default. *)
Definition or_default (v : option Z) (alt : Z) : Z :=
  match v with
  | Some x => if x =? 0 then alt else x
  | None => alt
  end.

(** [v or None]. *)
Definition or_none (v : option Z) : option Z :=
  if truthy v then v else None.

(** A slice bound as Python normalises it for a sequence of length [len]. *)
Definition slice_index (len i : Z) : nat :=
  Z.to_nat (if i <? 0 then Z.max 0 (len + i) else Z.min i len).

(** [l[:stop]] *)
Definition slice_to {A : Type} (stop : Z) (l : list A) : list A :=
  firstn (slice_index (Z.of_nat (length l)) stop) l.

(** [l[start:stop]] *)
Definition slice {A : Type} (start stop : Z) (l : list A) : list A :=
  let len := Z.of_nat (length l) in
  skipn (slice_index len start) (firstn (slice_index len stop) l).

(** Rows paired with their index. *)
Definition indexed {A : Type} (l : list A) : list (nat * A) :=
  combine (seq 0 (length l)) l.

(* ================================================================= *)
(** ** Two-dimensional arrays

    An array of shape [(rows, cols)] is the list of its rows, as numpy
    indexes it: [M[k][i]] is [nth i (nth k M []) d]. *)

Section Arrays.

Context {A : Type}.
Variable d : A.

(** Column [i] of [M]. *)
Definition column (i : nat) (M : list (list A)) : list A :=
  map (fun row => nth i row d) M.

(** [M.T] for an array with [cols] columns. *)
Definition transpose (cols : nat) (M : list (list A)) : list (list A) :=
  map (fun i => column i M) (seq 0 cols).

(** [numpy.lib.stride_tricks.as_strided(x, shape=(rows, cols),
    strides=(s0, s1))], with the strides counted in elements: entry
    [(k, i)] is read at offset [k * s0 + i * s1] of [x].  numpy does not
    check the offset against the buffer; an offset past the end reads [d]
    here. *)
Definition as_strided (x : list A) (rows cols s0 s1 : nat) : list (list A) :=
  map (fun k => map (fun i => nth (k * s0 + i * s1) x d) (seq 0 cols))
      (seq 0 rows).

(** Apply [f] to the rows whose index satisfies [sel]: an in-place
    update of a row selection. *)
Definition update_rows (sel : nat -> bool) (f : list A -> list A)
    (M : list (list A)) : list (list A) :=
  map (fun jr => if sel (fst jr) then f (snd jr) else snd jr) (indexed M).

End Arrays.

(* ================================================================= *)
(** ** scale_signal *)

(** A double as the rational it stands for. *)
Definition double_value (x : Z) : Q := (inject_Z x / inject_Z B64.U)%Q.

(** [2**(audio['sample_width'] - 1)] as the divisor of a true division.
    For a width of at least 1 the power is a Python [int], which the
    division converts to binary64; for a smaller width Python computes the
    power as a [float]. *)
Definition scale_divisor (width : Z) : Z :=
  if width <? 1 then B64.lit 1 (2 ^ (1 - width))
  else B64.of_Z (2 ^ (width - 1)).

(** One sample of the quotient: numpy converts the integer sample to
    binary64 and divides in binary64. *)
Definition scale_sample (width s : Z) : Q :=
  double_value (B64.div (B64.of_Z s) (scale_divisor width)).

(** [audio['signal'] / 2**(audio['sample_width'] - 1)] *)
Definition scale_signal (a : audio) : list Q :=
  map (scale_sample (sample_width a)) (signal a).

(* ================================================================= *)
(** ** The framer (lines 194-219) *)

(** [window_size = 0.020] and [step_size = 0.010], in seconds. *)
Definition window_size : Z := B64.lit 20 1000.
Definition step_size : Z := B64.lit 10 1000.

(** [int(window_size * sample_rate)] and [int(step_size * sample_rate)] *)
Definition frame_size (rate : Z) : Z :=
  B64.to_int (B64.mul window_size (B64.of_Z rate)).
Definition hop_size (rate : Z) : Z :=
  B64.to_int (B64.mul step_size (B64.of_Z rate)).

(** The same two sizes with [round] in place of [int], as the
    specification words them. *)
Definition rounded_frame_size (rate : Z) : Z :=
  B64.nearest (B64.mul window_size (B64.of_Z rate)).
Definition rounded_hop_size (rate : Z) : Z :=
  B64.nearest (B64.mul step_size (B64.of_Z rate)).

Section Framer.

Context {A : Type}.
Variable d : A.

(** [remove = (len(signal) - frame_size) % hop_size] *)
Definition remove_count (sig : list A) (frame hop : Z) : Z :=
  (Z.of_nat (length sig) - frame) mod hop.

(** [clean = signal[:-remove] if remove else signal] *)
Definition clean_signal (sig : list A) (frame hop : Z) : list A :=
  let remove := remove_count sig frame hop in
  if remove =? 0 then sig else slice_to (- remove) sig.

(** [num_frames = (len(clean) - frame_size) // hop_size + 1] *)
Definition num_frames (sig : list A) (frame hop : Z) : Z :=
  (Z.of_nat (length (clean_signal sig frame hop)) - frame) / hop + 1.

(** The frame matrix of shape [(frame_size, num_frames)], with the strides
    [(1, hop_size)] counted in samples.  The modulo raises for a zero hop;
    numpy refuses a negative dimension.  A view is only built for a frame
    size that is not negative, and then the hop the program derives is
    positive, so [Z.to_nat] loses nothing. *)
Definition frame_signal (sig : list A) (frame hop : Z)
    : result (list (list A)) :=
  if hop =? 0 then Raise ZeroDivisionError
  else
    let clean := clean_signal sig frame hop in
    let n := num_frames sig frame hop in
    if (frame <? 0) || (n <? 0)
    then Raise (ValueError "negative dimensions are not allowed")
    else Ok (as_strided d clean (Z.to_nat frame) (Z.to_nat n)
                        1 (Z.to_nat hop)).

End Framer.

(* ================================================================= *)
(** ** The spectral analyser (lines 221-257) *)

Module Spectral.

Local Open Scope R_scope.

(** [numpy.hanning(M)] *)
Definition hanning (M : nat) : list R :=
  match M with
  | O => []
  | S O => [1]
  | _ => map (fun k => 0.5 - 0.5 * cos (2 * PI * INR k / INR (M - 1)))
             (seq 0 M)
  end.

(** [sum_k x[k] * f(k0 + k)] *)
Fixpoint weighted_sum (f : nat -> R) (x : list R) (k0 : nat) : R :=
  match x with
  | [] => 0
  | xk :: xs => xk * f k0 + weighted_sum f xs (S k0)
  end.

(** Coefficient [j] of the discrete Fourier transform of [x], as the pair
    of its real and imaginary parts:
    [sum_k x[k] * exp(-2 pi i j k / n)]. *)
Definition dft_bin (x : list R) (j : nat) : R * R :=
  let n := INR (length x) in
  (weighted_sum (fun k => cos (2 * PI * INR j * INR k / n)) x 0,
   - weighted_sum (fun k => sin (2 * PI * INR j * INR k / n)) x 0).

(** [numpy.fft.rfft(M, axis=0)] for an array with [cols] columns: the
    coefficients [0 .. n/2] of every column, [n] the number of rows. *)
Definition rfft_axis0 (M : list (list R)) (cols : nat)
    : list (list (R * R)) :=
  map (fun j => map (fun i => dft_bin (column 0 i M) j) (seq 0 cols))
      (seq 0 (Nat.div (length M) 2 + 1)).

(** [numpy.absolute(z)] *)
Definition absolute (z : R * R) : R := sqrt (fst z * fst z + snd z * snd z).

(** [frames * numpy.expand_dims(filter_window, -1)] *)
Definition apply_window (window : list R) (frames : list (list R))
    : list (list R) :=
  map (fun rw => map (fun x => x * snd rw) (fst rw)) (combine frames window).

(** [norm = numpy.absolute(fft)**2] of the windowed frames. *)
Definition power_spectrum (frames : list (list R)) (cols : nat)
    : list (list R) :=
  let filter_window := hanning (length frames) in
  let fft := rfft_axis0 (apply_window filter_window frames) cols in
  map (map (fun z => absolute z ^ 2)) fft.

(** [numpy.sum(filter_window**2) * audio['sample_rate']] *)
Definition window_scale (window : list R) (rate : Z) : R :=
  fold_right Rplus 0 (map (fun w => w ^ 2) window) * IZR rate.

(** [scaled[1:-1] /= scale/2] then [scaled[[0, -1]] /= scale] *)
Definition normalize (scale : R) (norm : list (list R)) : list (list R) :=
  let bins := length norm in
  let inner :=
    update_rows (fun j => Nat.leb 1 j && Nat.ltb j (bins - 1))
                (map (fun p => p / (scale / 2))) norm in
  update_rows (fun j => Nat.eqb j 0 || Nat.eqb j (bins - 1))
              (map (fun p => p / scale)) inner.

(** [spec] before the crop: shape (frequency, time). *)
Definition normalized_power (frames : list (list R)) (cols : nat)
    (rate : Z) : list (list R) :=
  normalize (window_scale (hanning (length frames)) rate)
            (power_spectrum frames cols).

End Spectral.

(** Entry [i0] of a row multiplied by [c]. *)
Fixpoint scale_at (c : R) (i0 : nat) (row : list R) : list R :=
  match row, i0 with
  | [], _ => []
  | x :: r, O => (c * x)%R :: r
  | x :: r, S i => x :: scale_at c i r
  end.


(** [delta_freq = 1 / window_size] *)
Definition delta_freq : Z := B64.div (B64.of_Z 1) window_size.

(** [int(f / delta_freq + 0.5)] *)
Definition bin_of (f : Z) : Z :=
  B64.to_int (B64.add (B64.div (B64.of_Z f) delta_freq) (B64.lit 5 10)).

(** The lambda [get_bin], with the [num_bins] it closes over:
    [min(max(int(f / delta_freq + 0.5), 0), num_bins) if f else alt]. *)
Definition get_bin (num_bins : Z) (f : option Z) (alt : Z) : Z :=
  match f with
  | Some v =>
      if v =? 0 then alt
      else Z.min (Z.max (bin_of v) 0) num_bins
  | None => alt
  end.

(** The crop bin as the specification words it: the cutoff divided by
    [delta_freq], rounded to the nearest integer and clamped. *)
Definition clamp (x lo hi : Z) : Z := Z.min (Z.max x lo) hi.
Definition nearest_bin (num_bins f : Z) : Z :=
  clamp (B64.nearest (B64.div (B64.of_Z f) delta_freq)) 0 num_bins.

(** Lines 237-253: the crop of the frequency axis. *)
Definition crop {A : Type} (low high : option Z) (spec : list (list A))
    : list (list A) :=
  if truthy low || truthy high then
    let num_bins := Z.of_nat (length spec) in
    slice (get_bin num_bins low 0) (get_bin num_bins high num_bins) spec
  else spec.

(** Lines 255-257: [numpy.log(spec + 1e-14).T] for [cols] time frames. *)
Definition log_transpose (cols : nat) (spec : list (list R)) : list (list R) :=
  transpose 0%R cols (map (map (fun p => ln (p + 1e-14)%R)) spec).

(** [spec] after the crop and before the logarithm: shape (frequency, time). *)
Definition prelog_spectrogram (low high : option Z) (frames : list (list R))
    (cols : nat) (rate : Z) : list (list R) :=
  crop low high (Spectral.normalized_power frames cols rate).

(* ================================================================= *)
(** ** get_audio_features *)

(** What the function returns: the raw signal, the call it forwards to
    [python_speech_features.mfcc] (signal, rate, [numcep], [nfilt],
    [lowfreq], [highfreq]), or the spectrogram of shape (time, frequency). *)
Inductive feature : Type :=
| Raw (sig : list Z)
| Mfcc (sig : list Z) (rate numcep nfilt lowfreq : Z) (highfreq : option Z)
| Spec (spec : list (list R)).

(** The ['spec'] branch. *)
Definition spec_features (a : audio) (kw : kwargs) : result feature :=
  let sig := map Q2R (scale_signal a) in
  let hop := hop_size (sample_rate a) in
  let frame := frame_size (sample_rate a) in
  match frame_signal 0%R sig frame hop with
  | Raise e => Raise e
  | Ok frames =>
      if frame <? 1
      then Raise (ValueError "Invalid number of FFT data points (0) specified.")
      else
        let cols := Z.to_nat (num_frames sig frame hop) in
        Ok (Spec (log_transpose cols
                    (prelog_spectrogram (low_freq kw) (high_freq kw)
                                        frames cols (sample_rate a))))
  end.

Definition get_audio_features (a : audio) (feature_type : string)
    (kw : kwargs) : result feature :=
  if String.eqb feature_type "raw" then Ok (Raw (signal a))
  else if String.eqb feature_type "mfcc" then
    let num_features := or_default (features kw) 13 in
    Ok (Mfcc (signal a) (sample_rate a) num_features (num_features * 2)
             (or_default (low_freq kw) 0) (or_none (high_freq kw)))
  else if String.eqb feature_type "spec" then spec_features a kw
  else Raise (ValueError
                (String.append "Unsupported feature type: " feature_type)).

(* ================================================================= *)
(** ** One frame of the spectrogram *)

(** Lines 221-257 on a matrix of a single frame [x]: the row of the
    spectrogram that this frame yields. *)
Definition frame_spectrum (rate : Z) (low high : option Z) (x : list R)
    : list R :=
  nth 0 (log_transpose 1
           (prelog_spectrogram low high (map (fun v => [v]) x) 1 rate)) [].

(** A frame multiplied by the Hann window of its length. *)
Definition windowed (x : list R) : list R :=
  map (fun vw => (fst vw * snd vw)%R) (combine x (Spectral.hanning (length x))).

(** What lines 230-231 divide bin [j] of [bins] by. *)
Definition bin_divisor (scale : R) (bins j : nat) : R :=
  if Nat.eqb j 0 || Nat.eqb j (bins - 1) then scale else (scale / 2)%R.

(** The normalised power of bin [j] of a frame [x]. *)
Definition bin_power (rate : Z) (x : list R) (j : nat) : R :=
  (Spectral.absolute (Spectral.dft_bin (windowed x) j) ^ 2
   / bin_divisor (Spectral.window_scale (Spectral.hanning (length x)) rate)
                 (Nat.div (length x) 2 + 1) j)%R.

(** The indices of the bins that the crop keeps, out of [bins]. *)
Definition kept_bins (low high : option Z) (bins : nat) : list nat :=
  if truthy low || truthy high then
    let num_bins := Z.of_nat bins in
    slice (get_bin num_bins low 0) (get_bin num_bins high num_bins)
          (seq 0 bins)
  else seq 0 bins.

(* ================================================================= *)
(** ** Loading (lines 42-150)

    The decoders ([scipy.io.wavfile], [pydub]), the MIME sniffer ([magic])
    and the file system are outside the module; what they answer for a
    file name is a parameter of the model. *)

(** The exceptions that travel through the loaders; [OtherError] is any
    exception class the module does not name. *)
Inductive load_exn : Type :=
| IOError (msg : string)
| DependencyError
| FileNotFoundError
| KeyboardInterrupt
| OtherError (cls : string).

(** A call that returns or raises. *)
Inductive attempt (A : Type) : Type :=
| Done (a : A)
| Failed (e : load_exn).

Arguments Done {A} a.
Arguments Failed {A} e.

(** What [wav.read] returns: the rate and an integer array, of one
    dimension for a mono file and of shape (samples, channels) otherwise,
    with the size in bytes of one item. *)
Inductive wav_samples : Type :=
| Mono (samples : list Z)
| Multi (rows : list (list Z)).

Record wav_file : Type := mk_wav {
  wav_rate : Z;
  wav_data : wav_samples;
  wav_itemsize : Z
}.

Definition sum_Z (l : list Z) : Z := fold_right Z.add 0 l.

(** One row of [numpy.array(sig.mean(axis=1), dtype=sig.dtype)]: the sum
    of the row as a double, divided by the count of channels, and cast
    back to the integer type, which truncates. *)
Definition mean_cast (row : list Z) : Z :=
  B64.to_int (B64.div (B64.of_Z (sum_Z row))
                      (B64.of_Z (Z.of_nat (length row)))).

(** The dictionary [load_wav] builds from what [wav.read] returned. *)
Definition audio_of_wav (w : wav_file) : audio :=
  mk_audio (match wav_data w with
            | Mono samples => samples
            | Multi rows => map mean_cast rows
            end)
           (wav_rate w) (wav_itemsize w * 8) 1.

(** The part of pydub's [AudioSegment] that [load_pydub] uses. *)
Record pydub_api (segment : Type) : Type := mk_pydub {
  seg_channels : segment -> Z;
  split_to_mono : segment -> list segment;
  overlay : segment -> segment -> segment;
  get_array_of_samples : segment -> list Z;
  frame_rate : segment -> Z;
  seg_sample_width : segment -> Z
}.

Arguments seg_channels {segment} _ _.
Arguments split_to_mono {segment} _ _.
Arguments overlay {segment} _ _ _.
Arguments get_array_of_samples {segment} _ _.
Arguments frame_rate {segment} _ _.
Arguments seg_sample_width {segment} _ _.

(** [functools.reduce(f, l)] without an initial value. *)
Definition reduce {A : Type} (f : A -> A -> A) (l : list A) : attempt A :=
  match l with
  | [] => Failed (OtherError "TypeError")
  | x :: rest => Done (fold_left f rest x)
  end.

(** What a failed load leaves in the log: which of the two messages, for
    which file, with which MIME type. *)
Inductive log_record : Type :=
| LogMissingDependency (filename ftype : string)
| LogLoadFailure (filename ftype : string).

(** The first argument of [get_audio_features]: a file name or a
    dictionary. *)
Inductive audio_input : Type :=
| Path (filename : string)
| Buffer (a : audio).

(** An exception of either part of the module. *)
Inductive py_exn : Type :=
| LoadExn (e : load_exn)
| FeatureExn (e : exn).

Inductive outcome (A : Type) : Type :=
| Returned (a : A)
| Raised (e : py_exn).

Arguments Returned {A} a.
Arguments Raised {A} e.

Section Loaders.

Context {segment : Type}.
Variable pydub : pydub_api segment.
Variable wav_read : string -> attempt wav_file.
Variable from_file : string -> attempt segment.
Variable isfile : string -> bool.
Variable magic_from_file : string -> attempt string.

(** [load_wav] *)
Definition load_wav (filename : string) : attempt audio :=
  match wav_read filename with
  | Done w => Done (audio_of_wav w)
  | Failed e => Failed e
  end.

(** [load_pydub] *)
Definition load_pydub (filename : string) : attempt audio :=
  match from_file filename with
  | Failed FileNotFoundError =>
      if isfile filename then Failed DependencyError
      else Failed FileNotFoundError
  | Failed e => Failed e
  | Done data =>
      let mixed :=
        if 1 <? seg_channels pydub data
        then reduce (overlay pydub) (split_to_mono pydub data)
        else Done data in
      match mixed with
      | Failed e => Failed e
      | Done data' =>
          Done (mk_audio (get_array_of_samples pydub data')
                         (frame_rate pydub data')
                         (seg_sample_width pydub data' * 8)
                         (seg_channels pydub data'))
      end
  end.

(** The dictionary [loaders] of [load_audio]. *)
Definition loaders : list (string * (string -> attempt audio)) :=
  [ ("audio/x-wav"%string, load_wav);
    ("audio/mpeg"%string, load_pydub);
    ("audio/x-flac"%string, load_pydub) ].

(** [loaders[ftype]], [None] for a key that is not in the dictionary. *)
Fixpoint lookup {V : Type} (key : string) (dict : list (string * V))
    : option V :=
  match dict with
  | [] => None
  | (k, v) :: rest => if String.eqb key k then Some v else lookup key rest
  end.

(** [load_audio]: what it returns or raises, and what it logs. *)
Definition load_audio (filename : string)
    : attempt audio * list log_record :=
  match magic_from_file filename with
  | Failed e => (Failed e, [])
  | Done ftype =>
      match lookup ftype loaders with
      | None =>
          (Failed (IOError
                   (String.append "No loader available for filetype ("
                      (String.append ftype
                         (String.append ") for file: " filename)))), [])
      | Some loader =>
          match loader filename with
          | Done a => (Done a, [])
          | Failed DependencyError =>
              (Failed DependencyError, [LogMissingDependency filename ftype])
          | Failed KeyboardInterrupt => (Failed KeyboardInterrupt, [])
          | Failed e => (Failed e, [LogLoadFailure filename ftype])
          end
      end
  end.

(** [get_audio_features] with lines 176-177: a file name is loaded
    first. *)
Definition get_audio_features_input (input : audio_input)
    (feature_type : string) (kw : kwargs)
    : outcome feature * list log_record :=
  let run (a : audio) :=
    match get_audio_features a feature_type kw with
    | Ok f => Returned f
    | Raise e => Raised (FeatureExn e)
    end in
  match input with
  | Buffer a => (run a, [])
  | Path filename =>
      match load_audio filename with
      | (Done a, log) => (run a, log)
      | (Failed e, log) => (Raised (LoadExn e), log)
      end
  end.

End Loaders.

(** A decoder for the examples: a segment is the list of the samples of
    one channel. *)
Definition mono_segments : pydub_api (list Z) :=
  mk_pydub (list Z) (fun _ => 1) (fun s => [s]) (fun x _ => x) (fun s => s)
           (fun _ => 44100) (fun _ => 2).

(* ================================================================= *)
(** ** The normalisation in binary64 (lines 226-231) *)


(* ================================================================= *)
(** ** The energy of a window *)

(** [numpy.sum(filter_window**2)] *)
Definition sum_sq (ws : list R) : R :=
  fold_right Rplus 0%R (map (fun w => (w ^ 2)%R) ws).

(* ================================================================= *)
(** * Properties *)

(** ** Rounding to nearest *)

Module B64Facts.

Import B64.

Lemma pow2_pos (s : Z) : 0 <= s -> 0 < 2 ^ s.
Proof. intros; apply Z.pow_pos_nonneg; lia. Qed.

Lemma U_pos : 0 < U.
Proof. unfold U; apply pow2_pos; lia. Qed.

(** The anatomy of a rounding: the significand [m], its exponent [s],
    the remainder [r], and the side the result falls on. *)
Lemma rne_pos_spec (n d : Z) :
  0 <= n -> 0 < d ->
  exists m s r,
    0 <= s /\ 0 <= m < 2 ^ 53 /\ (0 < s -> 2 ^ 52 <= m) /\
    n = m * 2 ^ s * d + r /\ 0 <= r < 2 ^ s * d /\
    ((rne_pos n d = m * 2 ^ s /\ 2 * r <= 2 ^ s * d) \/
     (rne_pos n d = (m + 1) * 2 ^ s /\ 2 ^ s * d <= 2 * r)).
Proof.
  intros Hn Hd. unfold rne_pos, prec.
  set (q := n / d). set (s := Z.max 0 (Z.log2 q + 1 - 53)).
  set (D := d * 2 ^ s). set (m := n / D). set (r := n mod D).
  assert (Hs : 0 <= s) by lia.
  assert (Hp : 0 < 2 ^ s) by (apply pow2_pos; lia).
  assert (HD : 0 < D) by (unfold D; nia).
  assert (Hm : n = D * m + r) by (apply Z.div_mod; lia).
  assert (Hr : 0 <= r < D) by (apply Z.mod_pos_bound; lia).
  assert (Hq0 : 0 <= q) by (apply Z.div_pos; lia).
  assert (Hmq : m = q / 2 ^ s).
  { unfold m, D, q. rewrite Z.div_div; lia. }
  assert (Hm0 : 0 <= m) by (rewrite Hmq; apply Z.div_pos; lia).
  assert (Hm53 : m < 2 ^ 53 /\ (0 < s -> 2 ^ 52 <= m)).
  { destruct (Z.eq_dec s 0) as [E|E].
    - split; [|lia]. rewrite Hmq, E, Z.pow_0_r, Z.div_1_r.
      destruct (Z.eq_dec q 0) as [Eq|Eq]; [rewrite Eq; reflexivity|].
      apply Z.log2_lt_pow2; lia.
    - assert (Hq : 0 < q).
      { destruct (Z.eq_dec q 0) as [Eq|Eq]; [|lia].
        subst s; rewrite Eq in E; simpl in E; lia. }
      destruct (Z.log2_spec q Hq) as [Hlo Hhi].
      assert (Es : Z.log2 q = 52 + s) by lia.
      rewrite Es in Hlo.
      replace (Z.succ (Z.log2 q)) with (53 + s) in Hhi by lia.
      rewrite Z.pow_add_r in Hlo, Hhi by lia.
      split; [|intros _]; rewrite Hmq.
      + apply Z.div_lt_upper_bound; lia.
      + apply Z.div_le_lower_bound; lia. }
  exists m, s, r.
  replace (2 ^ s * d) with D by (unfold D; ring).
  replace (m * 2 ^ s * d) with (D * m) by (unfold D; ring).
  repeat split; try lia.
  destruct (D <? 2 * r) eqn:E1; cbn [orb andb].
  - right; split; [reflexivity|]. apply Z.ltb_lt in E1; lia.
  - apply Z.ltb_ge in E1.
    destruct (D =? 2 * r) eqn:E2; cbn [orb andb].
    + apply Z.eqb_eq in E2.
      destruct (Z.odd m); [right|left]; split; try reflexivity; lia.
    + left; split; [reflexivity|lia].
Qed.

(** No double lies strictly between two neighbours of one binade. *)
Lemma representable_gap (y m s : Z) :
  representable y -> 0 <= s -> 0 <= m -> (0 < s -> 2 ^ 52 <= m) ->
  m * 2 ^ s < y -> (m + 1) * 2 ^ s <= y.
Proof.
  intros (my & sy & Hmy & Hsy & ->) Hs Hm Hnorm Hlt.
  destruct (Z_le_gt_dec s sy) as [Hle|Hgt].
  - assert (E : 2 ^ sy = 2 ^ (sy - s) * 2 ^ s).
    { rewrite <- Z.pow_add_r by lia. f_equal; lia. }
    assert (Hp : 0 < 2 ^ s) by (apply pow2_pos; lia).
    rewrite E, Z.mul_assoc in *.
    apply Z.mul_le_mono_nonneg_r; [lia|].
    apply Z.mul_lt_mono_pos_r in Hlt; lia.
  - exfalso.
    assert (Hs1 : 2 ^ s = 2 ^ sy * 2 ^ (s - sy)).
    { rewrite <- Z.pow_add_r by lia. f_equal; lia. }
    assert (0 < 2 ^ sy) by (apply pow2_pos; lia).
    assert (2 ^ 1 <= 2 ^ (s - sy)) by (apply Z.pow_le_mono_r; lia).
    assert (2 ^ 52 <= m) by (apply Hnorm; lia).
    change (2 ^ 53) with (2 * 2 ^ 52) in Hmy. change (2 ^ 1) with 2 in *.
    rewrite Hs1 in Hlt.
    generalize dependent (2 ^ 52). generalize dependent (2 ^ sy).
    generalize dependent (2 ^ (s - sy)). intros; nia.
Qed.

(** A double below the exact value stays below its rounding. *)
Lemma rne_pos_ge (n d y : Z) :
  0 <= n -> 0 < d -> representable y -> y * d <= n -> y <= rne_pos n d.
Proof.
  intros Hn Hd Hy Hle.
  destruct (rne_pos_spec n d Hn Hd)
    as (m & s & r & Hs & Hm & Hnorm & En & Hr & Hside).
  assert (0 < 2 ^ s) by (apply pow2_pos; lia).
  destruct (Z_le_gt_dec y (m * 2 ^ s)) as [H1|H1].
  - destruct Hside as [[-> _] | [-> _]]; lia.
  - pose proof (representable_gap y m s Hy Hs (proj1 Hm) Hnorm ltac:(lia)).
    nia.
Qed.

(** A double above the exact value stays above its rounding. *)
Lemma rne_pos_le (n d y : Z) :
  0 <= n -> 0 < d -> representable y -> n <= y * d -> rne_pos n d <= y.
Proof.
  intros Hn Hd Hy Hle.
  destruct (rne_pos_spec n d Hn Hd)
    as (m & s & r & Hs & Hm & Hnorm & En & Hr & Hside).
  assert (0 < 2 ^ s) by (apply pow2_pos; lia).
  destruct (Z_le_gt_dec y (m * 2 ^ s)) as [H1|H1].
  - assert (r = 0) by nia.
    destruct Hside as [[-> _] | [_ Hup]]; nia.
  - pose proof (representable_gap y m s Hy Hs (proj1 Hm) Hnorm ltac:(lia)).
    destruct Hside as [[-> _] | [-> _]]; lia.
Qed.

Lemma rne_pos_nonneg (n d : Z) : 0 <= n -> 0 < d -> 0 <= rne_pos n d.
Proof.
  intros Hn Hd.
  destruct (rne_pos_spec n d Hn Hd)
    as (m & s & r & Hs & Hm & _ & _ & _ & Hside).
  assert (0 < 2 ^ s) by (apply pow2_pos; lia).
  destruct Hside as [[-> _] | [-> _]]; nia.
Qed.

(** Rounding at most doubles a value. *)
Lemma rne_pos_le_twice (n d : Z) :
  0 <= n -> 0 < d -> rne_pos n d * d <= 2 * n.
Proof.
  intros Hn Hd.
  destruct (rne_pos_spec n d Hn Hd)
    as (m & s & r & Hs & Hm & _ & En & Hr & Hside).
  assert (0 < 2 ^ s) by (apply pow2_pos; lia).
  destruct Hside as [[-> _] | [-> Hup]]; nia.
Qed.

Lemma rne_nonneg (n d : Z) : 0 <= n -> rne n d = rne_pos n d.
Proof.
  intros Hn. unfold rne.
  destruct (n <? 0) eqn:E; [apply Z.ltb_lt in E; lia|reflexivity].
Qed.

Lemma rne_nonpos (n d : Z) : n <= 0 -> 0 < d -> rne n d <= 0.
Proof.
  intros Hn Hd. unfold rne. destruct (n <? 0) eqn:E.
  - pose proof (rne_pos_nonneg (- n) d ltac:(lia) Hd). lia.
  - apply Z.ltb_ge in E. assert (n = 0) by lia; subst n.
    apply (rne_pos_le 0 d 0); try lia.
    exists 0, 0; repeat split; lia.
Qed.

Lemma representable_scaled (m s : Z) :
  0 <= m < 2 ^ 53 -> 0 <= s -> representable (m * 2 ^ s).
Proof. intros Hm Hs; exists m, s; auto. Qed.

(** Rounding leaves a double unchanged. *)
Lemma rne_pos_exact (y d : Z) :
  0 < d -> 0 <= y -> representable y -> rne_pos (y * d) d = y.
Proof.
  intros Hd Hy Hr. apply Z.le_antisymm.
  - apply rne_pos_le; auto; nia.
  - apply rne_pos_ge; auto; nia.
Qed.

(** An integer below [2^53] converts to [float] without rounding. *)
Lemma of_Z_exact (n : Z) : 0 <= n < 2 ^ 53 -> of_Z n = n * U.
Proof.
  intros Hn. unfold of_Z. pose proof U_pos.
  rewrite rne_nonneg by nia.
  rewrite <- (Z.mul_1_r (n * U)) at 1.
  apply rne_pos_exact; try nia.
  unfold U. apply representable_scaled; lia.
Qed.

Lemma of_Z_nonpos (n : Z) : n <= 0 -> of_Z n <= 0.
Proof.
  intros Hn. unfold of_Z. pose proof U_pos.
  apply rne_nonpos; [nia|lia].
Qed.

(** [int()] of a value in [[k, k + 1)]. *)
Lemma to_int_floor (v k : Z) :
  0 <= k -> k * U <= v < (k + 1) * U -> to_int v = k.
Proof.
  intros Hk Hv. pose proof U_pos. unfold to_int.
  rewrite Z.quot_div_nonneg by nia.
  symmetry. apply (Z.div_unique v U k (v - k * U)); lia.
Qed.

Lemma to_int_nonpos (v : Z) : v < U -> to_int v <= 0.
Proof.
  intros Hv. pose proof U_pos. unfold to_int.
  destruct (Z_le_gt_dec 0 v).
  - rewrite Z.quot_small; lia.
  - apply Z.quot_le_upper_bound; lia.
Qed.

Lemma to_int_pos (v : Z) : 0 < to_int v -> U <= v.
Proof.
  intros Hv. destruct (Z_lt_ge_dec v U) as [H|H]; [|lia].
  pose proof (to_int_nonpos v H). lia.
Qed.

End B64Facts.

(* ================================================================= *)
(** ** Frame and hop sizes *)

Section Sizes.

Import B64 B64Facts.

Lemma window_size_value : window_size = 5764607523034235 * 2 ^ 1016.
Proof. vm_compute. reflexivity. Qed.

Lemma step_size_value : step_size = 5764607523034235 * 2 ^ 1015.
Proof. vm_compute. reflexivity. Qed.

Lemma window_twice_step : window_size = 2 * step_size.
Proof. vm_compute. reflexivity. Qed.

(** The product of an integer [rate] with a constant [M * E] that lies
    just above [1 / p] truncates to the floor of [rate / p].  [g * E] is
    [1.0] and [G] is [1 / 128]. *)
Lemma to_int_mul_floor (M E G p g rate : Z) :
  0 < E -> U = g * E -> 128 * G = U -> 0 < p -> 0 <= M ->
  g <= M * p ->
  128 * (M * p - g) * 2 ^ 46 + 128 * M * (p - 1) <= 127 * g ->
  representable ((128 * (rate / p) + 127) * G) ->
  0 <= rate < p * 2 ^ 46 -> rate < 2 ^ 53 ->
  to_int (mul (M * E) (of_Z rate)) = rate / p.
Proof.
  intros HE EU EG Hp HM Hlo Hhi R2 Hr Hr53. unfold mul.
  rewrite of_Z_exact by lia.
  assert (Hk : p * (rate / p) <= rate < p * (rate / p) + p).
  { pose proof (Z.mul_div_le rate p Hp).
    pose proof (Z.mul_succ_div_gt rate p Hp). lia. }
  assert (Hk46 : 0 <= rate / p < 2 ^ 46).
  { split; [apply Z.div_pos; lia|apply Z.div_lt_upper_bound; lia]. }
  assert (R1 : representable (rate / p * U)).
  { unfold U. apply representable_scaled; lia. }
  set (k := rate / p) in *. clearbody k.
  assert (HU : 0 < U) by apply U_pos.
  assert (Hg : 0 < g) by nia.
  assert (H0 : 0 <= M * E * (rate * U)).
  { apply Z.mul_nonneg_nonneg; apply Z.mul_nonneg_nonneg; lia. }
  rewrite rne_nonneg by exact H0.
  assert (Hlow : k * g <= M * rate) by nia.
  assert (Hup : 128 * (M * rate) <= (128 * k + 127) * g).
  { assert (M * rate <= M * (p * k + (p - 1))) by
      (apply Z.mul_le_mono_nonneg_l; lia).
    assert ((M * p - g) * k <= (M * p - g) * 2 ^ 46) by
      (apply Z.mul_le_mono_nonneg_l; lia).
    lia. }
  replace (M * E * (rate * U)) with (M * rate * E * U) in * by ring.
  apply to_int_floor; [lia|]. split.
  - apply rne_pos_ge; auto.
    apply Z.mul_le_mono_nonneg_r; [lia|].
    rewrite EU. replace (k * (g * E)) with (k * g * E) by ring.
    apply Z.mul_le_mono_nonneg_r; lia.
  - assert (EG' : forall z, 128 * (z * G) = z * g * E).
    { intros z. rewrite <- Z.mul_assoc, <- EU, <- EG. ring. }
    apply Z.le_lt_trans with ((128 * k + 127) * G).
    + apply rne_pos_le; auto.
      apply Z.mul_le_mono_nonneg_r; [lia|].
      apply Z.mul_le_mono_pos_l with 128; [lia|].
      rewrite EG'.
      replace (128 * (M * rate * E)) with (128 * (M * rate) * E) by ring.
      apply Z.mul_le_mono_nonneg_r; lia.
    + apply Z.mul_lt_mono_pos_l with 128; [lia|].
      rewrite EG', EU.
      replace (128 * ((k + 1) * (g * E))) with (128 * (k + 1) * g * E) by ring.
      apply Z.mul_lt_mono_pos_r; [lia|].
      apply Z.mul_lt_mono_pos_r; lia.
Qed.

(** [int(0.020 * rate)] is the floor of [rate / 50]. *)
Lemma frame_size_floor (rate : Z) :
  0 <= rate < 2 ^ 48 -> frame_size rate = rate / 50.
Proof.
  intros Hr. unfold frame_size. rewrite window_size_value.
  assert (Hk : 0 <= rate / 50 < 2 ^ 46).
  { split; [apply Z.div_pos; lia|apply Z.div_lt_upper_bound; lia]. }
  apply (to_int_mul_floor _ _ (2 ^ 1067) 50 (2 ^ 58));
    first [ apply representable_scaled; lia
          | apply pow2_pos; lia
          | lia
          | vm_compute; reflexivity ].
Qed.

(** [int(0.010 * rate)] is the floor of [rate / 100]. *)
Lemma hop_size_floor (rate : Z) :
  0 <= rate < 2 ^ 48 -> hop_size rate = rate / 100.
Proof.
  intros Hr. unfold hop_size. rewrite step_size_value.
  assert (Hk : 0 <= rate / 100 < 2 ^ 46).
  { split; [apply Z.div_pos; lia|apply Z.div_lt_upper_bound; lia]. }
  apply (to_int_mul_floor _ _ (2 ^ 1067) 100 (2 ^ 59));
    first [ apply representable_scaled; lia
          | apply pow2_pos; lia
          | lia
          | vm_compute; reflexivity ].
Qed.

(** Whatever the rate, a positive hop comes with a positive frame. *)
Lemma frame_size_pos (rate : Z) :
  0 < hop_size rate -> 0 < frame_size rate.
Proof.
  unfold hop_size, frame_size, mul. intros Hh.
  pose proof U_pos as HU.
  assert (Hstep : 0 < step_size) by (vm_compute; reflexivity).
  apply to_int_pos in Hh.
  destruct (Z_le_gt_dec (of_Z rate) 0) as [Hx|Hx].
  { pose proof (rne_nonpos (step_size * of_Z rate) U ltac:(nia) HU). lia. }
  rewrite rne_nonneg in Hh by nia.
  pose proof (rne_pos_le_twice (step_size * of_Z rate) U ltac:(nia) HU) as H2.
  assert (HUU : U * U <= window_size * of_Z rate).
  { rewrite window_twice_step, <- Z.mul_assoc.
    apply Z.le_trans with (rne_pos (step_size * of_Z rate) U * U); [|lia].
    apply Z.mul_le_mono_nonneg_r; lia. }
  assert (Hw : 0 <= window_size * of_Z rate).
  { apply Z.le_trans with (U * U); [|exact HUU].
    apply Z.mul_nonneg_nonneg; lia. }
  rewrite rne_nonneg by exact Hw.
  assert (RU : representable U).
  { unfold U. rewrite <- (Z.mul_1_l (2 ^ 1074)).
    apply representable_scaled; lia. }
  pose proof (rne_pos_ge _ U U Hw HU RU HUU) as Hge.
  unfold to_int.
  pose proof (Z.quot_le_mono U _ U HU Hge) as Hq.
  rewrite Z.quot_same in Hq by lia. lia.
Qed.

End Sizes.

(* ================================================================= *)
(** ** Lists, slices and strided views *)

Section ListFacts.

Context {A : Type}.
Variable d : A.

Lemma nth_map_seq {B : Type} (f : nat -> B) (n i : nat) (e : B) :
  (i < n)%nat -> nth i (map f (seq 0 n)) e = f i.
Proof.
  intros Hi.
  rewrite (nth_indep _ e (f 0%nat)) by (rewrite length_map, length_seq; lia).
  rewrite map_nth, seq_nth by lia. reflexivity.
Qed.

Lemma skipn_nth_cons (l : list A) (o : nat) :
  (o < length l)%nat -> skipn o l = nth o l d :: skipn (S o) l.
Proof.
  revert o. induction l as [|x l IH]; intros o Ho; simpl in Ho; [lia|].
  destruct o as [|o]; [reflexivity|].
  simpl. apply IH. lia.
Qed.

(** Reading [n] consecutive elements from offset [o] is a slice. *)
Lemma map_nth_window (l : list A) (n o : nat) :
  (o + n <= length l)%nat ->
  map (fun k => nth (k * 1 + o) l d) (seq 0 n) = firstn n (skipn o l).
Proof.
  revert o. induction n as [|n IH]; intros o Ho; [reflexivity|].
  rewrite (skipn_nth_cons l o) by lia.
  cbn [seq map firstn]. f_equal.
  rewrite <- seq_shift, map_map, <- IH by lia.
  apply map_ext. intros k. f_equal. lia.
Qed.

(** Column [i] of a strided view with row stride [1]. *)
Lemma column_as_strided (x : list A) (rows cols s1 i : nat) :
  (i < cols)%nat ->
  column d i (as_strided d x rows cols 1 s1)
  = map (fun k => nth (k * 1 + i * s1) x d) (seq 0 rows).
Proof.
  intros Hi. unfold column, as_strided. rewrite map_map.
  apply map_ext. intros k.
  apply (nth_map_seq (fun i' => nth (k * 1 + i' * s1) x d)); exact Hi.
Qed.

Lemma as_strided_rows (x : list A) (rows cols s0 s1 : nat) :
  length (as_strided d x rows cols s0 s1) = rows.
Proof. unfold as_strided. rewrite length_map, length_seq. reflexivity. Qed.

Lemma as_strided_cols (x : list A) (rows cols s0 s1 : nat) (row : list A) :
  In row (as_strided d x rows cols s0 s1) -> length row = cols.
Proof.
  unfold as_strided. rewrite in_map_iff. intros (k & <- & _).
  rewrite length_map, length_seq. reflexivity.
Qed.

Lemma slice_to_firstn (l : list A) (stop : Z) :
  - Z.of_nat (length l) <= stop < 0 ->
  slice_to stop l = firstn (Z.to_nat (Z.of_nat (length l) + stop)) l.
Proof.
  intros Hs. unfold slice_to, slice_index.
  destruct (stop <? 0) eqn:E; [|apply Z.ltb_ge in E; lia].
  f_equal. lia.
Qed.

End ListFacts.

(* ================================================================= *)
(** ** The framer *)

Section FramerFacts.

Context {A : Type}.
Variable d : A.
Variables (sig : list A) (F H : Z).
Hypothesis hop_pos : 0 < H.

Let L : Z := Z.of_nat (length sig).

Lemma remove_count_bounds : 0 <= remove_count sig F H < H.
Proof. unfold remove_count. apply Z.mod_pos_bound; exact hop_pos. Qed.

Lemma remove_count_split :
  L - F = H * ((L - F) / H) + remove_count sig F H.
Proof. unfold remove_count. apply Z.div_mod. lia. Qed.

(** With at least one full frame, the cleaned signal is the prefix
    without the last [remove] samples. *)
Lemma clean_signal_prefix :
  F <= L -> 0 <= F ->
  clean_signal sig F H
  = firstn (Z.to_nat (L - remove_count sig F H)) sig.
Proof.
  intros HF HF0. unfold clean_signal.
  pose proof remove_count_bounds as Hb.
  pose proof remove_count_split as Hs.
  assert (0 <= (L - F) / H) by (apply Z.div_pos; lia).
  destruct (remove_count sig F H =? 0) eqn:E.
  - apply Z.eqb_eq in E. rewrite E, Z.sub_0_r. unfold L.
    rewrite Nat2Z.id, firstn_all. reflexivity.
  - apply Z.eqb_neq in E. rewrite slice_to_firstn by (fold L; nia).
    reflexivity.
Qed.

Lemma clean_signal_length :
  F <= L -> 0 <= F ->
  Z.of_nat (length (clean_signal sig F H)) = L - remove_count sig F H.
Proof.
  intros HF HF0. rewrite clean_signal_prefix by assumption.
  pose proof remove_count_bounds as Hb.
  pose proof remove_count_split as Hs.
  assert (0 <= (L - F) / H) by (apply Z.div_pos; lia).
  rewrite length_firstn. fold L in Hs |- *. unfold L in *. nia.
Qed.

Lemma num_frames_value :
  F <= L -> 0 <= F ->
  num_frames sig F H = (L - F) / H + 1.
Proof.
  intros HF HF0. unfold num_frames.
  rewrite clean_signal_length by assumption.
  pose proof remove_count_split as Hs.
  replace (L - remove_count sig F H - F) with (((L - F) / H) * H) by lia.
  rewrite Z.div_mul by lia. reflexivity.
Qed.

End FramerFacts.

Section ShortSignal.
Context {A : Type}.
Variables (sig : list A) (F H : Z).
Hypothesis hop_pos : 0 < H.
Let L : Z := Z.of_nat (length sig).


End ShortSignal.

(* ================================================================= *)
(** ** The crop bins *)

Section Bins.
Import B64 B64Facts.

Lemma rne_between (n d lo hi : Z) :
  0 <= n -> 0 < d -> representable lo -> representable hi ->
  lo * d <= n <= hi * d -> lo <= rne n d <= hi.
Proof.
  intros Hn Hd Hlo Hhi [H1 H2]. rewrite rne_nonneg by exact Hn.
  split; [apply rne_pos_ge|apply rne_pos_le]; assumption.
Qed.

Lemma delta_freq_value : delta_freq = 50 * U.
Proof. vm_compute. reflexivity. Qed.

Lemma half_value : lit 5 10 = 2 ^ 1073.
Proof. vm_compute. reflexivity. Qed.

Lemma grain_pos : 0 < grain.
Proof. apply pow2_pos; lia. Qed.

Lemma U_grain : U = 128 * grain.
Proof. vm_compute. reflexivity. Qed.

Lemma representable_grain (m : Z) :
  0 <= m < 2 ^ 53 -> representable (m * grain).
Proof. intros Hm. apply representable_scaled; lia. Qed.

(** The quotient [v / delta_freq] of a positive cutoff stays on its side
    of the half-way point between two bins. *)
Lemma cutoff_quotient (v : Z) :
  0 < v < 2 ^ 50 ->
  let k := v / 50 in
  let x := div (of_Z v) delta_freq in
  (v - 50 * k <= 24 ->
     128 * k * grain <= x <= (128 * k + 62) * grain) /\
  (25 <= v - 50 * k ->
     (128 * k + 64) * grain <= x <= (128 * k + 128) * grain).
Proof.
  intros Hv k x. unfold x, div.
  rewrite delta_freq_value, of_Z_exact by lia.
  pose proof U_pos as HU. pose proof grain_pos as HG.
  replace (50 * U <? 0) with false by (symmetry; apply Z.ltb_ge; lia).
  assert (Hk : 50 * k <= v < 50 * k + 50).
  { unfold k. pose proof (Z.mul_div_le v 50 ltac:(lia)).
    pose proof (Z.mul_succ_div_gt v 50 ltac:(lia)). lia. }
  assert (Hk45 : 0 <= k < 2 ^ 45).
  { split; [apply Z.div_pos; lia|apply Z.div_lt_upper_bound; lia]. }
  clearbody k.
  assert (HGG : 0 < grain * grain) by (apply Z.mul_pos_pos; lia).
  assert (Hn : 0 <= v * U * U).
  { apply Z.mul_nonneg_nonneg; [apply Z.mul_nonneg_nonneg|]; lia. }
  assert (En : v * U * U = (v * 16384) * (grain * grain))
    by (rewrite U_grain; ring).
  assert (Ed : forall z, z * grain * (50 * U) = (z * 6400) * (grain * grain))
    by (intros z; rewrite U_grain; ring).
  assert (Hd : 0 < 50 * U) by lia.
  split; intros Hr.
  - apply (rne_between _ _ _ _ Hn Hd);
      try (apply representable_grain; lia).
    rewrite !Ed, En. split; apply Z.mul_le_mono_nonneg_r; lia.
  - apply (rne_between _ _ _ _ Hn Hd);
      try (apply representable_grain; lia).
    rewrite !Ed, En. split; apply Z.mul_le_mono_nonneg_r; lia.
Qed.

Lemma cutoff_closed_form (v k : Z) :
  50 * k <= v < 50 * k + 50 ->
  (v - 50 * k <= 24 -> (2 * v + 50) / 100 = k) /\
  (25 <= v - 50 * k -> (2 * v + 50) / 100 = k + 1).
Proof.
  intros Hk. split; intros Hr; symmetry.
  - apply (Z.div_unique _ 100 k (2 * v + 50 - 100 * k)); lia.
  - apply (Z.div_unique _ 100 (k + 1) (2 * v + 50 - 100 * (k + 1))); lia.
Qed.

(** [int(v / delta_freq + 0.5)] for a positive cutoff. *)
Lemma bin_of_positive (v : Z) :
  0 < v < 2 ^ 50 -> bin_of v = (2 * v + 50) / 100.
Proof.
  intros Hv. unfold bin_of. rewrite half_value.
  destruct (cutoff_quotient v Hv) as [Hlo Hhi].
  assert (Hk : 50 * (v / 50) <= v < 50 * (v / 50) + 50).
  { pose proof (Z.mul_div_le v 50 ltac:(lia)).
    pose proof (Z.mul_succ_div_gt v 50 ltac:(lia)). lia. }
  assert (Hk45 : 0 <= v / 50 < 2 ^ 45).
  { split; [apply Z.div_pos; lia|apply Z.div_lt_upper_bound; lia]. }
  destruct (cutoff_closed_form v (v / 50) Hk) as [Clo Chi].
  set (k := v / 50) in *. clearbody k.
  set (x := div (of_Z v) delta_freq) in *. clearbody x.
  pose proof grain_pos as HG.
  assert (EH : 2 ^ 1073 = 64 * grain) by (vm_compute; reflexivity).
  rewrite EH. unfold add.
  assert (H1 : 0 < 1) by lia.
  assert (H0 : 0 <= 128 * k * grain) by (apply Z.mul_nonneg_nonneg; lia).
  destruct (Z_le_gt_dec (v - 50 * k) 24) as [Hr|Hr].
  - specialize (Hlo Hr). rewrite (Clo Hr).
    assert (Hs : 0 <= x + 64 * grain) by lia.
    assert (Hy : (128 * k + 64) * grain <= rne (x + 64 * grain) 1
                 <= (128 * k + 126) * grain).
    { apply (rne_between _ _ _ _ Hs H1);
        try (apply representable_grain; lia). lia. }
    apply to_int_floor; [lia|]. rewrite U_grain. lia.
  - assert (Hr' : 25 <= v - 50 * k) by lia.
    specialize (Hhi Hr'). rewrite (Chi Hr').
    assert (Hs : 0 <= x + 64 * grain) by lia.
    assert (Hy : (128 * k + 128) * grain <= rne (x + 64 * grain) 1
                 <= (128 * k + 192) * grain).
    { apply (rne_between _ _ _ _ Hs H1);
        try (apply representable_grain; lia). lia. }
    apply to_int_floor; [lia|]. rewrite U_grain. lia.
Qed.

(** The nearest integer to [v / delta_freq] for a positive cutoff. *)
Lemma nearest_positive (v : Z) :
  0 < v < 2 ^ 50 ->
  nearest (div (of_Z v) delta_freq) = (2 * v + 50) / 100.
Proof.
  intros Hv. unfold nearest.
  destruct (cutoff_quotient v Hv) as [Hlo Hhi].
  assert (Hk : 50 * (v / 50) <= v < 50 * (v / 50) + 50).
  { pose proof (Z.mul_div_le v 50 ltac:(lia)).
    pose proof (Z.mul_succ_div_gt v 50 ltac:(lia)). lia. }
  destruct (cutoff_closed_form v (v / 50) Hk) as [Clo Chi].
  set (k := v / 50) in *. clearbody k.
  set (x := div (of_Z v) delta_freq) in *. clearbody x.
  pose proof grain_pos as HG. rewrite U_grain.
  destruct (Z_le_gt_dec (v - 50 * k) 24) as [Hr|Hr].
  - specialize (Hlo Hr). rewrite (Clo Hr). symmetry.
    apply (Z.div_unique _ _ k (2 * x + 128 * grain - 2 * (128 * grain) * k));
      lia.
  - assert (Hr' : 25 <= v - 50 * k) by lia.
    specialize (Hhi Hr'). rewrite (Chi Hr'). symmetry.
    apply (Z.div_unique _ _ (k + 1)
             (2 * x + 128 * grain - 2 * (128 * grain) * (k + 1))); lia.
Qed.

Lemma quotient_of_negative (v : Z) :
  v < 0 -> div (of_Z v) delta_freq <= 0.
Proof.
  intros Hv. rewrite delta_freq_value. pose proof U_pos as HU.
  pose proof (of_Z_nonpos v ltac:(lia)) as Hx0.
  unfold div.
  replace (50 * U <? 0) with false by (symmetry; apply Z.ltb_ge; lia).
  apply rne_nonpos; [|lia]. apply Z.mul_nonpos_nonneg; lia.
Qed.

(** A negative cutoff never reaches bin [1]. *)
Lemma bin_of_negative (v : Z) : v < 0 -> bin_of v <= 0.
Proof.
  intros Hv. unfold bin_of. rewrite half_value.
  pose proof (quotient_of_negative v Hv) as Hx.
  set (x := div (of_Z v) delta_freq) in *. clearbody x.
  unfold add.
  assert (EU : U = 2 * 2 ^ 1073) by (vm_compute; reflexivity).
  assert (RH : representable (1 * 2 ^ 1073))
    by (apply representable_scaled; lia).
  assert (HG : 0 < 2 ^ 1073) by (apply pow2_pos; lia).
  set (G := 2 ^ 1073) in *. clearbody G.
  apply to_int_nonpos.
  destruct (Z_le_gt_dec (x + G) 0) as [Hs|Hs].
  - assert (H1 : 0 < 1) by lia.
    pose proof (rne_nonpos (x + G) 1 Hs H1). lia.
  - rewrite rne_nonneg by lia.
    assert (Hs0 : 0 <= x + G) by lia.
    assert (H1 : 0 < 1) by lia.
    assert (Hle : x + G <= 1 * G * 1) by lia.
    pose proof (rne_pos_le (x + G) 1 (1 * G) Hs0 H1 RH Hle).
    lia.
Qed.

Lemma nearest_negative (v : Z) :
  v < 0 -> nearest (div (of_Z v) delta_freq) <= 0.
Proof.
  intros Hv. unfold nearest. pose proof U_pos as HU.
  pose proof (quotient_of_negative v Hv) as Hx.
  apply Z.lt_succ_r. apply Z.div_lt_upper_bound; lia.
Qed.

(** The closed form of [get_bin]: the cutoff divided by 50 Hz and
    rounded to the nearest bin, clamped to [[0, num_bins]]. *)
Lemma get_bin_closed (num_bins v alt : Z) :
  v <> 0 -> Z.abs v < 2 ^ 50 -> 0 <= num_bins ->
  get_bin num_bins (Some v) alt = clamp ((2 * v + 50) / 100) 0 num_bins.
Proof.
  intros Hv Hb Hn. unfold get_bin, clamp.
  replace (v =? 0) with false by (symmetry; apply Z.eqb_neq; exact Hv).
  destruct (Z_lt_ge_dec v 0) as [Hneg|Hpos].
  - pose proof (bin_of_negative v Hneg).
    assert ((2 * v + 50) / 100 <= 0).
    { apply Z.lt_succ_r. apply Z.div_lt_upper_bound; lia. }
    lia.
  - assert (Hv' : 0 < v < 2 ^ 50) by lia.
    pose proof (bin_of_positive v Hv') as E. rewrite E. reflexivity.
Qed.

Lemma nearest_bin_closed (num_bins v : Z) :
  v <> 0 -> Z.abs v < 2 ^ 50 -> 0 <= num_bins ->
  nearest_bin num_bins v = clamp ((2 * v + 50) / 100) 0 num_bins.
Proof.
  intros Hv Hb Hn. unfold nearest_bin, clamp.
  destruct (Z_lt_ge_dec v 0) as [Hneg|Hpos].
  - pose proof (nearest_negative v Hneg).
    assert ((2 * v + 50) / 100 <= 0).
    { apply Z.lt_succ_r. apply Z.div_lt_upper_bound; lia. }
    lia.
  - assert (Hv' : 0 < v < 2 ^ 50) by lia.
    pose proof (nearest_positive v Hv') as E. rewrite E. reflexivity.
Qed.

Lemma get_bin_range (num_bins : Z) (f : option Z) (alt : Z) :
  0 <= num_bins -> 0 <= alt <= num_bins ->
  0 <= get_bin num_bins f alt <= num_bins.
Proof.
  intros Hn Ha. unfold get_bin. destruct f as [v|]; [|exact Ha].
  destruct (v =? 0); lia.
Qed.

End Bins.

(* ================================================================= *)
(** ** Rows, row updates and the power spectrum *)

Section RowFacts.

Context {A B : Type}.


Lemma indexed_seq (e : A) (l : list A) :
  indexed l = map (fun j => (j, nth j l e)) (seq 0 (length l)).
Proof.
  unfold indexed.
  enough (Hgen : forall s,
    combine (seq s (length l)) l
    = map (fun j => (j, nth (j - s) l e)) (seq s (length l))).
  { rewrite Hgen. apply map_ext. intros j. rewrite Nat.sub_0_r. reflexivity. }
  induction l as [|x l IH]; intros s; [reflexivity|].
  cbn [length seq combine map]. rewrite Nat.sub_diag. f_equal.
  rewrite IH. apply map_ext_in. intros j Hj. apply in_seq in Hj.
  replace (j - s)%nat with (S (j - S s)) by lia. reflexivity.
Qed.

Lemma length_indexed (l : list A) : length (indexed l) = length l.
Proof. unfold indexed. rewrite length_combine, length_seq. lia. Qed.


Lemma nth_map_default (f : A -> B) (l : list A) (i : nat) (e : A) (e' : B) :
  f e = e' -> nth i (map f l) e' = f (nth i l e).
Proof. intros <-. apply map_nth. Qed.

End RowFacts.

Section UpdateRows.

Context {A : Type}.

Lemma length_update_rows (sel : nat -> bool) (f : list A -> list A)
    (M : list (list A)) :
  length (update_rows sel f M) = length M.
Proof. unfold update_rows. rewrite length_map. apply length_indexed. Qed.

Lemma update_rows_seq (sel : nat -> bool) (f : list A -> list A)
    (M : list (list A)) :
  update_rows sel f M
  = map (fun j => if sel j then f (nth j M []) else nth j M [])
        (seq 0 (length M)).
Proof.
  unfold update_rows. rewrite (indexed_seq [] M), map_map. reflexivity.
Qed.


End UpdateRows.

Module SpectralFacts.

Import Spectral.
Local Open Scope R_scope.

Lemma length_hanning (M : nat) : length (hanning M) = M.
Proof.
  destruct M as [|[|M]]; try reflexivity.
  unfold hanning. rewrite length_map, length_seq. reflexivity.
Qed.

Lemma absolute_sq (z : R * R) :
  absolute z ^ 2 = fst z * fst z + snd z * snd z.
Proof. unfold absolute. apply pow2_sqrt. nra. Qed.

Lemma length_power_spectrum (frames : list (list R)) (cols : nat) :
  length (power_spectrum frames cols) = (Nat.div (length frames) 2 + 1)%nat.
Proof.
  unfold power_spectrum, rfft_axis0, apply_window.
  rewrite !length_map, length_seq, length_combine, length_hanning.
  rewrite Nat.min_id. reflexivity.
Qed.

Lemma power_spectrum_cols (frames : list (list R)) (cols : nat)
    (row : list R) :
  In row (power_spectrum frames cols) -> length row = cols.
Proof.
  unfold power_spectrum, rfft_axis0. rewrite map_map, in_map_iff.
  intros (j & <- & _). rewrite !length_map, length_seq. reflexivity.
Qed.

(** The two in-place divisions, row by row. *)
Lemma normalize_rows (scale : R) (P : list (list R)) :
  normalize scale P
  = map (fun j =>
           map (fun p =>
                  if Nat.leb 1 j && Nat.ltb j (length P - 1)
                  then p / (scale / 2) else p / scale)
               (nth j P []))
        (seq 0 (length P)).
Proof.
  unfold normalize.
  rewrite (update_rows_seq _ _ (update_rows _ _ P)).
  rewrite length_update_rows.
  apply map_ext_in. intros j Hj. apply in_seq in Hj.
  rewrite update_rows_seq.
  rewrite (nth_map_seq _ (length P) j []) by lia.
  destruct (Nat.leb 1 j) eqn:E1; destruct (Nat.ltb j (length P - 1)) eqn:E2;
    cbn [andb].
  - apply Nat.leb_le in E1. apply Nat.ltb_lt in E2.
    replace (Nat.eqb j 0) with false by (symmetry; apply Nat.eqb_neq; lia).
    replace (Nat.eqb j (length P - 1)) with false
      by (symmetry; apply Nat.eqb_neq; lia).
    reflexivity.
  - apply Nat.leb_le in E1. apply Nat.ltb_ge in E2.
    replace (Nat.eqb j (length P - 1)) with true
      by (symmetry; apply Nat.eqb_eq; lia).
    rewrite orb_true_r. reflexivity.
  - apply Nat.leb_gt in E1.
    replace (Nat.eqb j 0) with true by (symmetry; apply Nat.eqb_eq; lia).
    reflexivity.
  - apply Nat.leb_gt in E1.
    replace (Nat.eqb j 0) with true by (symmetry; apply Nat.eqb_eq; lia).
    reflexivity.
Qed.

Lemma length_normalize (scale : R) (P : list (list R)) :
  length (normalize scale P) = length P.
Proof. unfold normalize. rewrite !length_update_rows. reflexivity. Qed.

End SpectralFacts.

Module Homogeneity.

Import Spectral SpectralFacts.
Local Open Scope R_scope.

Lemma length_scale_at (c : R) (i0 : nat) (row : list R) :
  length (scale_at c i0 row) = length row.
Proof.
  revert i0. induction row as [|x r IH]; intros [|i0]; cbn; auto.
Qed.






Lemma weighted_sum_scaled (f : nat -> R) (c : R) (x : list R) (k0 : nat) :
  weighted_sum f (map (Rmult c) x) k0 = c * weighted_sum f x k0.
Proof.
  revert k0. induction x as [|xk xs IH]; intros k0; cbn [map weighted_sum].
  - lra.
  - rewrite IH. lra.
Qed.

(** The squared magnitude of a DFT coefficient is homogeneous of
    degree two. *)
Lemma dft_power_scaled (c : R) (x : list R) (j : nat) :
  absolute (dft_bin (map (Rmult c) x) j) ^ 2
  = c ^ 2 * absolute (dft_bin x j) ^ 2.
Proof.
  rewrite !absolute_sq. unfold dft_bin. rewrite length_map.
  cbn [fst snd]. rewrite !weighted_sum_scaled. ring.
Qed.



Lemma slice_map {A B : Type} (g : A -> B) (lo hi : Z) (M : list A) :
  slice lo hi (map g M) = map g (slice lo hi M).
Proof.
  unfold slice. rewrite length_map, firstn_map, skipn_map. reflexivity.
Qed.


End Homogeneity.

(* ================================================================= *)
(** ** The pipeline of the ['spec'] feature *)

Section Pipeline.

Import Spectral SpectralFacts.

Variables (a : audio) (kw : kwargs).

Let sig : list R := map Q2R (scale_signal a).
Let F : Z := frame_size (sample_rate a).
Let H : Z := hop_size (sample_rate a).

Lemma length_scaled_signal :
  length (map Q2R (scale_signal a)) = length (signal a).
Proof. unfold scale_signal. rewrite !length_map. reflexivity. Qed.

(** A zero hop stops the call at the modulo. *)
Lemma spec_features_zero_hop :
  H = 0 -> spec_features a kw = Raise ZeroDivisionError.
Proof.
  intros E. unfold spec_features, frame_signal. fold H. rewrite E.
  reflexivity.
Qed.


(** Otherwise the call runs to the end. *)
Lemma spec_features_framed :
  0 < H -> 0 <= num_frames sig F H ->
  let cols := Z.to_nat (num_frames sig F H) in
  let frames :=
    as_strided 0%R (clean_signal sig F H) (Z.to_nat F) cols 1 (Z.to_nat H) in
  spec_features a kw
  = Ok (Spec (log_transpose cols
                (prelog_spectrogram (low_freq kw) (high_freq kw)
                                    frames cols (sample_rate a)))).
Proof.
  intros HH Hn cols frames.
  pose proof (frame_size_pos (sample_rate a) HH) as HF. fold F in HF.
  unfold spec_features, frame_signal. fold sig F H.
  replace (H =? 0) with false by (symmetry; apply Z.eqb_neq; lia).
  replace (F <? 0) with false by (symmetry; apply Z.ltb_ge; lia).
  replace (num_frames sig F H <? 0) with false
    by (symmetry; apply Z.ltb_ge; lia).
  replace (F <? 1) with false by (symmetry; apply Z.ltb_ge; lia).
  reflexivity.
Qed.

End Pipeline.

Section Shapes.

Lemma transpose_length {A : Type} (d : A) (cols : nat) (M : list (list A)) :
  length (transpose d cols M) = cols.
Proof. unfold transpose. rewrite length_map, length_seq. reflexivity. Qed.

Lemma transpose_rows {A : Type} (d : A) (cols : nat) (M : list (list A))
    (row : list A) :
  In row (transpose d cols M) -> length row = length M.
Proof.
  unfold transpose, column. rewrite in_map_iff. intros (i & <- & _).
  apply length_map.
Qed.


Lemma log_transpose_rows (cols : nat) (M : list (list R)) (row : list R) :
  In row (log_transpose cols M) -> length row = length M.
Proof.
  unfold log_transpose. intros Hin. apply transpose_rows in Hin.
  rewrite length_map in Hin. exact Hin.
Qed.

Lemma crop_unset {A : Type} (M : list (list A)) : crop None None M = M.
Proof. reflexivity. Qed.

(** A slice whose bounds lie inside the list. *)
Lemma slice_inside {A : Type} (lo hi : Z) (l : list A) :
  0 <= lo <= Z.of_nat (length l) -> 0 <= hi <= Z.of_nat (length l) ->
  slice lo hi l = firstn (Z.to_nat hi - Z.to_nat lo) (skipn (Z.to_nat lo) l).
Proof.
  intros Hlo Hhi. unfold slice, slice_index.
  replace (lo <? 0) with false by (symmetry; apply Z.ltb_ge; lia).
  replace (hi <? 0) with false by (symmetry; apply Z.ltb_ge; lia).
  rewrite !Z.min_l by lia. apply skipn_firstn_comm.
Qed.


Lemma slice_whole {A : Type} (l : list A) :
  slice 0 (Z.of_nat (length l)) l = l.
Proof.
  rewrite slice_inside by lia. rewrite Nat2Z.id. cbn [Z.to_nat skipn].
  rewrite Nat.sub_0_r. apply firstn_all.
Qed.

End Shapes.

Section FrameCount.

Context {A B : Type}.

Lemma clean_signal_map (g : A -> B) (sig : list A) (F H : Z) :
  clean_signal (map g sig) F H = map g (clean_signal sig F H).
Proof.
  unfold clean_signal, remove_count, slice_to. rewrite length_map.
  destruct (_ =? 0); [reflexivity|]. apply firstn_map.
Qed.

(** The count of frames depends on the length of the signal only. *)
Lemma num_frames_map (g : A -> B) (sig : list A) (F H : Z) :
  num_frames (map g sig) F H = num_frames sig F H.
Proof.
  unfold num_frames. rewrite clean_signal_map, length_map. reflexivity.
Qed.

End FrameCount.

Lemma num_frames_scaled (a : audio) (F H : Z) :
  num_frames (map Q2R (scale_signal a)) F H = num_frames (signal a) F H.
Proof. unfold scale_signal. rewrite !num_frames_map. reflexivity. Qed.

Import Spectral SpectralFacts Homogeneity.

Lemma length_normalized_power (frames : list (list R)) (cols : nat) (rate : Z) :
  length (normalized_power frames cols rate)
  = (Nat.div (length frames) 2 + 1)%nat.
Proof.
  unfold normalized_power. rewrite length_normalize.
  apply length_power_spectrum.
Qed.

Lemma half_plus_one (F : Z) :
  0 <= F -> Z.of_nat (Nat.div (Z.to_nat F) 2 + 1) = F / 2 + 1.
Proof.
  intros HF. rewrite Nat2Z.inj_add, Nat2Z.inj_div, Z2Nat.id by lia.
  reflexivity.
Qed.


(** Inside the range of exact sizes, the hop never exceeds the frame. *)
Lemma hop_le_frame (rate : Z) :
  0 <= rate < 2 ^ 48 -> 2 * hop_size rate <= frame_size rate.
Proof.
  intros Hr.
  pose proof (frame_size_floor rate Hr) as EF.
  pose proof (hop_size_floor rate Hr) as EH.
  rewrite EF, EH.
  pose proof (Z.mul_div_le rate 100 ltac:(lia)).
  pose proof (Z.mul_succ_div_gt rate 50 ltac:(lia)).
  lia.
Qed.

(** Cutoffs in decreasing order give bins in decreasing order. *)
Lemma get_bin_inverted (bins lo hi : Z) :
  0 <= bins -> lo <> 0 -> hi <> 0 ->
  Z.abs lo < 2 ^ 50 -> Z.abs hi < 2 ^ 50 -> hi <= lo ->
  get_bin bins (Some hi) bins <= get_bin bins (Some lo) 0.
Proof.
  intros Hb Hlo Hhi Bl Bh Hle.
  pose proof (get_bin_closed bins hi bins Hhi Bh Hb) as E1.
  pose proof (get_bin_closed bins lo 0 Hlo Bl Hb) as E2.
  rewrite E1, E2. unfold clamp.
  assert ((2 * hi + 50) / 100 <= (2 * lo + 50) / 100)
    by (apply Z.div_le_mono; lia).
  lia.
Qed.


Section CropFacts.

Context {A : Type}.
Variables (spec : list (list A)) (low high : option Z).
Let num_bins : Z := Z.of_nat (length spec).

Lemma crop_rows :
  crop low high spec
  = firstn (Z.to_nat (get_bin num_bins high num_bins)
            - Z.to_nat (get_bin num_bins low 0))
           (skipn (Z.to_nat (get_bin num_bins low 0)) spec).
Proof.
  assert (Hn : 0 <= num_bins) by (unfold num_bins; lia).
  unfold crop. fold num_bins.
  destruct (truthy low || truthy high) eqn:E.
  - apply slice_inside; fold num_bins; apply get_bin_range; lia.
  - apply orb_false_elim in E. destruct E as [El Eh].
    assert (Gl : get_bin num_bins low 0 = 0).
    { destruct low as [v|]; [|reflexivity]. cbn in El.
      apply negb_false_iff in El. unfold get_bin. rewrite El. reflexivity. }
    assert (Gh : get_bin num_bins high num_bins = num_bins).
    { destruct high as [v|]; [|reflexivity]. cbn in Eh.
      apply negb_false_iff in Eh. unfold get_bin. rewrite Eh. reflexivity. }
    rewrite Gl, Gh. unfold num_bins. rewrite Nat2Z.id.
    cbn [Z.to_nat skipn]. rewrite Nat.sub_0_r, firstn_all. reflexivity.
Qed.

End CropFacts.


(** ** The scaled samples in binary64 *)

Section ScaleFacts.

Import B64 B64Facts.

(** Integers of at most 53 bits are doubles. *)
Lemma of_Z_exact_signed (n : Z) : Z.abs n < 2 ^ 53 -> of_Z n = n * U.
Proof.
  intros Hn. destruct (Z_lt_ge_dec n 0) as [Hneg|Hpos].
  - pose proof U_pos as HU.
    pose proof (of_Z_exact (- n) ltac:(lia)) as E.
    unfold of_Z, rne in E |- *.
    replace (n * U <? 0) with true by (symmetry; apply Z.ltb_lt; nia).
    replace (- n * U <? 0) with false in E by (symmetry; apply Z.ltb_ge; nia).
    replace (- (n * U)) with (- n * U) by ring. rewrite E. ring.
  - apply of_Z_exact. lia.
Qed.

(** Rounding keeps zero and commutes with negation. *)
Lemma rne_pos_zero (d : Z) : 0 <= d -> rne_pos 0 d = 0.
Proof.
  intros Hd. unfold rne_pos. cbv zeta. rewrite Zdiv_0_l.
  change (Z.max 0 (Z.log2 0 + 1 - prec)) with 0.
  rewrite Z.pow_0_r, !Z.mul_1_r, Zdiv_0_l, Zmod_0_l.
  replace (d <? 2 * 0) with false by (symmetry; apply Z.ltb_ge; lia).
  change (Z.odd 0) with false. rewrite andb_false_r. reflexivity.
Qed.

Lemma rne_opp (n d : Z) : 0 <= d -> rne (- n) d = - rne n d.
Proof.
  intros Hd. unfold rne.
  destruct (Z.ltb_spec n 0) as [Hn|Hn].
  - replace (- n <? 0) with false by (symmetry; apply Z.ltb_ge; lia).
    lia.
  - destruct (Z.ltb_spec (- n) 0) as [Hm|Hm].
    + rewrite Z.opp_involutive. reflexivity.
    + assert (n = 0) by lia. subst n. cbn [Z.opp].
      rewrite rne_pos_zero by exact Hd. reflexivity.
Qed.

Lemma of_Z_opp (n : Z) : of_Z (- n) = - of_Z n.
Proof.
  unfold of_Z. rewrite Z.mul_opp_l. apply rne_opp. lia.
Qed.

Lemma div_opp (x y : Z) : 0 <= y -> div (- x) y = - div x y.
Proof.
  intros Hy. unfold div.
  replace (y <? 0) with false by (symmetry; apply Z.ltb_ge; lia).
  rewrite Z.mul_opp_l. apply rne_opp. exact Hy.
Qed.



(** A power of two is a double. *)
Lemma of_Z_pow2 (k : Z) : 0 <= k -> of_Z (2 ^ k) = 2 ^ k * U.
Proof.
  intros Hk. pose proof U_pos as HU. pose proof (pow2_pos k Hk) as Hp.
  unfold of_Z. rewrite rne_nonneg by nia.
  assert (R1 : representable (2 ^ k * U)).
  { exists 1, (k + 1074). split; [split; [lia|reflexivity]|]. split; [lia|].
    unfold U. rewrite Z.pow_add_r by lia. ring. }
  pose proof (rne_pos_exact (2 ^ k * U) 1 ltac:(lia) ltac:(nia) R1) as E.
  rewrite Z.mul_1_r in E. exact E.
Qed.

Lemma scale_divisor_nonneg (width : Z) : 0 <= scale_divisor width.
Proof.
  unfold scale_divisor. pose proof U_pos as HU.
  destruct (Z.ltb_spec width 1) as [Hw|Hw].
  - unfold lit. rewrite Z.mul_1_l. rewrite rne_nonneg by lia.
    apply rne_pos_nonneg; [lia|]. apply pow2_pos. lia.
  - rewrite of_Z_pow2 by lia. pose proof (pow2_pos (width - 1)). nia.
Qed.

Lemma of_Z_exact_le (n : Z) : Z.abs n <= 2 ^ 53 -> of_Z n = n * U.
Proof.
  intros Hn. destruct (Z.eq_dec (Z.abs n) (2 ^ 53)) as [E|E].
  - assert (Hc : n = 2 ^ 53 \/ n = - 2 ^ 53) by lia.
    destruct Hc as [-> | ->].
    + apply (of_Z_pow2 53). lia.
    + rewrite of_Z_opp, (of_Z_pow2 53) by lia. ring.
  - apply of_Z_exact_signed. lia.
Qed.

(** The quotient of a sample by the divisor is exact. *)
Lemma div_pow2_exact (s k : Z) :
  Z.abs s <= 2 ^ 53 -> 0 <= k <= 1074 ->
  div (s * U) (2 ^ k * U) = s * 2 ^ (1074 - k).
Proof.
  intros Hs Hk. pose proof U_pos as HU. pose proof (pow2_pos k ltac:(lia)) as Hp.
  pose proof (pow2_pos (1074 - k) ltac:(lia)) as Hp'.
  assert (HU2 : U = 2 ^ (1074 - k) * 2 ^ k).
  { unfold U. rewrite <- Z.pow_add_r by lia. f_equal. lia. }
  assert (Hd : 0 < 2 ^ k * U) by nia.
  assert (Hpos : forall t, 0 <= t <= 2 ^ 53 ->
            rne_pos (t * U * U) (2 ^ k * U) = t * 2 ^ (1074 - k)).
  { intros t Ht.
    assert (R1 : representable (t * 2 ^ (1074 - k))).
    { destruct (Z.eq_dec t (2 ^ 53)) as [->|Hne].
      - exists 1, (53 + (1074 - k)). split; [split; [lia|reflexivity]|].
        split; [lia|]. rewrite Z.pow_add_r by lia. ring.
      - apply representable_scaled; lia. }
    pose proof (rne_pos_exact (t * 2 ^ (1074 - k)) (2 ^ k * U) Hd
                  ltac:(nia) R1) as E.
    replace (t * 2 ^ (1074 - k) * (2 ^ k * U)) with (t * U * U) in E
      by (rewrite HU2 at 1; ring).
    exact E. }
  replace (div (s * U) (2 ^ k * U)) with (rne (s * U * U) (2 ^ k * U)).
  2:{ unfold div. replace (2 ^ k * U <? 0) with false
        by (symmetry; apply Z.ltb_ge; lia). reflexivity. }
  destruct (Z_lt_ge_dec s 0) as [Hneg|Hnn].
  - replace (s * U * U) with (- (- s * U * U)) by ring.
    rewrite rne_opp by lia.
    assert (0 <= - s * U * U).
    { apply Z.mul_nonneg_nonneg; [apply Z.mul_nonneg_nonneg|]; lia. }
    rewrite rne_nonneg by assumption.
    rewrite Hpos by lia. ring.
  - assert (0 <= s * U * U).
    { apply Z.mul_nonneg_nonneg; [apply Z.mul_nonneg_nonneg|]; lia. }
    rewrite rne_nonneg by assumption. apply Hpos. lia.
Qed.

Lemma double_value_scaled (s k : Z) :
  0 <= k <= 1074 ->
  (double_value (s * 2 ^ (1074 - k)) == inject_Z s / inject_Z (2 ^ k))%Q.
Proof.
  intros Hk. unfold double_value.
  pose proof (pow2_pos k ltac:(lia)) as Hp.
  pose proof (pow2_pos (1074 - k) ltac:(lia)) as Hp'.
  assert (HU2 : U = 2 ^ (1074 - k) * 2 ^ k).
  { unfold U. rewrite <- Z.pow_add_r by lia. f_equal. lia. }
  rewrite HU2. rewrite !inject_Z_mult.
  assert (N1 : ~ (inject_Z (2 ^ (1074 - k)) == 0)%Q).
  { change 0%Q with (inject_Z 0). rewrite inject_Z_injective. lia. }
  assert (N2 : ~ (inject_Z (2 ^ k) == 0)%Q).
  { change 0%Q with (inject_Z 0). rewrite inject_Z_injective. lia. }
  field. split; assumption.
Qed.

(** Samples of at most 53 bits are scaled without rounding. *)
Lemma scale_sample_exact (width s : Z) :
  1 <= width <= 1075 -> Z.abs s <= 2 ^ 53 ->
  (scale_sample width s == inject_Z s / inject_Z (2 ^ (width - 1)))%Q.
Proof.
  intros Hw Hs. unfold scale_sample, scale_divisor.
  replace (width <? 1) with false by (symmetry; apply Z.ltb_ge; lia).
  rewrite (of_Z_exact_le s Hs), of_Z_pow2 by lia.
  rewrite div_pow2_exact by lia.
  apply double_value_scaled. lia.
Qed.

Lemma double_value_opp (x : Z) :
  Q2R (double_value (- x)) = (- Q2R (double_value x))%R.
Proof.
  unfold double_value. rewrite <- Q2R_opp. apply Qeq_eqR.
  rewrite inject_Z_opp. unfold Qdiv. ring.
Qed.

Lemma scale_sample_opp (width s : Z) :
  Q2R (scale_sample width (- s)) = (- Q2R (scale_sample width s))%R.
Proof.
  unfold scale_sample.
  rewrite of_Z_opp, div_opp by apply scale_divisor_nonneg.
  apply double_value_opp.
Qed.


End ScaleFacts.

(** ** The energy of the window *)

Section WindowEnergy.

Local Open Scope R_scope.

Lemma sum_sq_nonneg (ws : list R) : 0 <= sum_sq ws.
Proof.
  unfold sum_sq. induction ws as [|w ws IH]; cbn [map fold_right]; [lra|].
  pose proof (pow2_ge_0 w). lra.
Qed.

Lemma sum_sq_ge (w : R) (ws : list R) : In w ws -> w ^ 2 <= sum_sq ws.
Proof.
  unfold sum_sq. induction ws as [|v ws IH]; intros Hin; [destruct Hin|].
  cbn [map fold_right]. pose proof (sum_sq_nonneg ws) as Hn.
  unfold sum_sq in Hn. pose proof (pow2_ge_0 v).
  destruct Hin as [->|Hin]; [lra|]. specialize (IH Hin). lra.
Qed.

(** The second weight of a Hann window of three or more points. *)
Lemma hanning_second_pos (M : nat) :
  (3 <= M)%nat -> 0 < nth 1 (hanning M) 0.
Proof.
  intros HM. destruct M as [|[|M]]; try lia.
  unfold hanning.
  rewrite (nth_map_seq _ (S (S M)) 1 0) by lia.
  replace (S (S M) - 1)%nat with (S M) by lia.
  assert (Hn : 2 <= INR (S M)).
  { replace 2 with (INR 2) by (cbn; lra). apply le_INR. lia. }
  pose proof PI_RGT_0 as Hpi.
  set (t := 2 * PI * INR 1 / INR (S M)).
  assert (Ht : 0 < t <= PI).
  { unfold t. change (INR 1) with 1. split.
    - apply Rdiv_lt_0_compat; lra.
    - apply Rmult_le_reg_r with (INR (S M)); [lra|].
      unfold Rdiv. rewrite Rmult_assoc, Rinv_l by lra. nra. }
  pose proof (cos_decreasing_1 0 t ltac:(lra) ltac:(lra) ltac:(lra)
                ltac:(lra) ltac:(lra)) as Hc.
  rewrite cos_0 in Hc. lra.
Qed.

(** A Hann window of three or more points, or of one, has energy. *)
Lemma window_energy_pos (M : nat) :
  M = 1%nat \/ (3 <= M)%nat -> 0 < sum_sq (hanning M).
Proof.
  intros [->|HM].
  - unfold sum_sq. cbn. lra.
  - pose proof (hanning_second_pos M HM) as Hp.
    assert (Hin : In (nth 1 (hanning M) 0) (hanning M)).
    { apply nth_In. rewrite length_hanning. lia. }
    pose proof (sum_sq_ge _ _ Hin) as Hge.
    assert (0 < nth 1 (hanning M) 0 ^ 2) by nra. lra.
Qed.

(** The Hann window of two points is zero at both. *)
Lemma window_energy_two : sum_sq (hanning 2) = 0.
Proof.
  unfold sum_sq, hanning. cbn [seq map fold_right Nat.sub INR].
  replace (2 * PI * 0 / 1) with 0 by lra.
  replace (2 * PI * 1 / 1) with (2 * PI) by lra.
  rewrite cos_0, cos_2PI. lra.
Qed.

Lemma window_scale_sum_sq (M : nat) (rate : Z) :
  window_scale (hanning M) rate = sum_sq (hanning M) * IZR rate.
Proof. reflexivity. Qed.

End WindowEnergy.

(** ** The dispatch on the feature type *)

Section Dispatch.

Variables (a : audio) (feature_type : string) (kw : kwargs).

Lemma dispatch_unsupported :
  feature_type <> "raw"%string -> feature_type <> "mfcc"%string ->
  feature_type <> "spec"%string ->
  get_audio_features a feature_type kw
  = Raise (ValueError
             (String.append "Unsupported feature type: " feature_type)).
Proof.
  intros Hraw Hmfcc Hspec. unfold get_audio_features.
  apply String.eqb_neq in Hraw, Hmfcc, Hspec.
  rewrite Hraw, Hmfcc, Hspec. reflexivity.
Qed.

Lemma dispatch_supported :
  feature_type = "raw"%string \/ feature_type = "mfcc"%string \/
  feature_type = "spec"%string ->
  forall t : string,
    get_audio_features a feature_type kw
    <> Raise (ValueError (String.append "Unsupported feature type: " t)).
Proof.
  intros [-> | [-> | ->]] t.
  - discriminate.
  - discriminate.
  - change (get_audio_features a "spec" kw) with (spec_features a kw).
    unfold spec_features, frame_signal.
    destruct (_ =? 0); [discriminate|].
    destruct (_ || _); [cbn [String.append]; discriminate|].
    destruct (_ <? 1); [cbn [String.append]; discriminate|discriminate].
Qed.

End Dispatch.

Section LoadedInput.

Context {segment : Type}.
Variable pydub : pydub_api segment.
Variable wav_read : string -> attempt wav_file.
Variable from_file : string -> attempt segment.
Variable isfile : string -> bool.
Variable magic_from_file : string -> attempt string.

(** On a dictionary, or on a file name that loads, the call is the
    dispatch on the dictionary. *)
Lemma input_loaded (input : audio_input) (a : audio)
    (feature_type : string) (kw : kwargs) :
  input = Buffer a \/
  (exists filename,
     input = Path filename /\
     fst (load_audio pydub wav_read from_file isfile magic_from_file
            filename) = Done a) ->
  fst (get_audio_features_input pydub wav_read from_file isfile
         magic_from_file input feature_type kw)
  = match get_audio_features a feature_type kw with
    | Ok f => Returned f
    | Raise e => Raised (FeatureExn e)
    end.
Proof.
  intros [->|(filename & -> & Hl)]; [reflexivity|].
  unfold get_audio_features_input.
  destruct (load_audio _ _ _ _ _ filename) as [[a'|e'] log];
    cbn [fst snd] in *.
  - injection Hl as ->. reflexivity.
  - discriminate.
Qed.

End LoadedInput.

(* ================================================================= *)
(** * The specification's claims *)

(** C1.  For the ['spec'] feature, the power [|rfft(window * frame)|^2] of
    every frame is divided by [scale] in the first and the last frequency
    bin (DC and Nyquist) and by [scale / 2] in every bin between them,
    where [scale = sum_k window[k]^2 * sample_rate]; for every frame matrix
    and sample rate the spectrogram before the logarithm (no crop) is this
    normalised power spectrum, of [frame_size // 2 + 1] bins. *)
Theorem power_normalization (frames : list (list R)) (cols : nat) (rate : Z) :
  let window := hanning (length frames) in
  let scale :=
    (fold_right Rplus 0 (map (fun w => w ^ 2) window) * IZR rate)%R in
  let power :=
    map (map (fun z => (absolute z ^ 2)%R))
        (rfft_axis0 (apply_window window frames) cols) in
  let bins := length power in
  bins = (Nat.div (length frames) 2 + 1)%nat /\
  prelog_spectrogram None None frames cols rate
  = map (fun j =>
           map (fun p =>
                  if Nat.eqb j 0 || Nat.eqb j (bins - 1)
                  then (p / scale)%R else (p / (scale / 2))%R)
               (nth j power []))
        (seq 0 bins).
Proof.
  intros window scale power bins.
  split; [apply (length_power_spectrum frames cols)|].
  unfold prelog_spectrogram. rewrite crop_unset.
  unfold normalized_power. fold window.
  change (window_scale window rate) with scale.
  change (power_spectrum frames cols) with power.
  rewrite normalize_rows. fold bins.
  apply map_ext_in. intros j Hj. apply in_seq in Hj.
  apply map_ext. intros p.
  destruct (Nat.leb 1 j) eqn:E1; destruct (Nat.ltb j (bins - 1)) eqn:E2;
    cbn [andb].
  - apply Nat.leb_le in E1. apply Nat.ltb_lt in E2.
    replace (Nat.eqb j 0) with false by (symmetry; apply Nat.eqb_neq; lia).
    replace (Nat.eqb j (bins - 1)) with false
      by (symmetry; apply Nat.eqb_neq; lia).
    reflexivity.
  - apply Nat.leb_le in E1. apply Nat.ltb_ge in E2.
    replace (Nat.eqb j (bins - 1)) with true
      by (symmetry; apply Nat.eqb_eq; lia).
    rewrite orb_true_r. reflexivity.
  - apply Nat.leb_gt in E1.
    replace (Nat.eqb j 0) with true by (symmetry; apply Nat.eqb_eq; lia).
    reflexivity.
  - apply Nat.leb_gt in E1.
    replace (Nat.eqb j 0) with true by (symmetry; apply Nat.eqb_eq; lia).
    reflexivity.
Qed.

(** C2.  For a signal of length [L >= F] framed with frame size [F] and hop
    [0 < H <= F]: the framer keeps the signal without its last
    [remove = (L - F) mod H] samples, produces [(L - remove - F) / H + 1]
    frames (at least one), frame [i] is the samples [[i*H, i*H + F)] of the
    truncated signal, all inside it, and two consecutive frames share
    exactly [F - H] samples: the last [F - H] of one are the first [F - H]
    of the next. *)
Theorem framer_frames {A : Type} (d : A) (sig : list A) (F H : Z) :
  0 < H -> H <= F -> F <= Z.of_nat (length sig) ->
  let L := Z.of_nat (length sig) in
  let remove := (L - F) mod H in
  let clean := firstn (Z.to_nat (L - remove)) sig in
  let n := (L - remove - F) / H + 1 in
  clean_signal sig F H = clean /\
  Z.of_nat (length clean) = L - remove /\
  num_frames sig F H = n /\ 1 <= n /\
  exists frames,
    frame_signal d sig F H = Ok frames /\
    length frames = Z.to_nat F /\
    (forall row, In row frames -> length row = Z.to_nat n) /\
    (forall i, (i < Z.to_nat n)%nat ->
       (i * Z.to_nat H + Z.to_nat F <= length clean)%nat /\
       column d i frames
       = firstn (Z.to_nat F) (skipn (i * Z.to_nat H) clean)) /\
    (forall i, (S i < Z.to_nat n)%nat ->
       skipn (Z.to_nat H) (column d i frames)
       = firstn (Z.to_nat (F - H)) (column d (S i) frames) /\
       Z.of_nat (length (skipn (Z.to_nat H) (column d i frames))) = F - H).
Proof.
  intros HH HHF HF L remove clean n.
  assert (HF0 : 0 <= F) by lia.
  pose proof (remove_count_bounds sig F H HH) as Hb.
  pose proof (remove_count_split sig F H HH) as Hs.
  pose proof (clean_signal_prefix sig F H HH HF HF0) as Hc.
  pose proof (clean_signal_length sig F H HH HF HF0) as Hl.
  pose proof (num_frames_value sig F H HH HF HF0) as Hn.
  change (remove_count sig F H) with remove in *.
  fold L in Hs, Hc, Hl, Hn. fold clean in Hc.
  assert (Hq : 0 <= (L - F) / H) by (apply Z.div_pos; lia).
  assert (En : n = (L - F) / H + 1).
  { unfold n. replace (L - remove - F) with (((L - F) / H) * H) by lia.
    rewrite Z.div_mul by lia. reflexivity. }
  assert (Hlen : Z.of_nat (length clean) = L - remove)
    by (rewrite <- Hc; exact Hl).
  assert (Hcover : forall i, (i < Z.to_nat n)%nat ->
            (i * Z.to_nat H + Z.to_nat F <= length clean)%nat).
  { intros i Hi. apply Nat2Z.inj_le.
    rewrite Nat2Z.inj_add, Nat2Z.inj_mul, !Z2Nat.id, Hlen by lia.
    assert (Z.of_nat i <= (L - F) / H) by lia. nia. }
  repeat split; try assumption; try lia.
  unfold frame_signal.
  replace (H =? 0) with false by (symmetry; apply Z.eqb_neq; lia).
  replace (F <? 0) with false by (symmetry; apply Z.ltb_ge; lia).
  replace (num_frames sig F H <? 0) with false
    by (symmetry; apply Z.ltb_ge; lia).
  cbn [orb]. eexists; split; [reflexivity|].
  rewrite Hc, Hn, <- En.
  assert (Hcol : forall i, (i < Z.to_nat n)%nat ->
     column d i (as_strided d clean (Z.to_nat F) (Z.to_nat n) 1 (Z.to_nat H))
     = firstn (Z.to_nat F) (skipn (i * Z.to_nat H) clean)).
  { intros i Hi. rewrite column_as_strided by exact Hi.
    apply map_nth_window. specialize (Hcover i Hi). lia. }
  split; [apply as_strided_rows|].
  split; [intros row; apply as_strided_cols|].
  split; [intros i Hi; split; [apply Hcover|apply Hcol]; exact Hi|].
  intros i Hi. rewrite !Hcol by lia.
  pose proof (Hcover (S i) Hi) as Hc1.
  split.
  - rewrite firstn_firstn.
    replace (Nat.min (Z.to_nat (F - H)) (Z.to_nat F))
      with (Z.to_nat (F - H)) by lia.
    rewrite skipn_firstn_comm, skipn_skipn.
    replace (Z.to_nat F - Z.to_nat H)%nat with (Z.to_nat (F - H)) by lia.
    replace (Z.to_nat H + i * Z.to_nat H)%nat
      with (S i * Z.to_nat H)%nat by lia.
    reflexivity.
  - rewrite length_skipn, length_firstn, length_skipn. lia.
Qed.

(** The framer on eleven samples, frames of four, hop two: one sample is
    cut, four frames remain, neighbours share two samples. *)
Lemma framer_frames_witness :
  clean_signal [1; 2; 3; 4; 5; 6; 7; 8; 9; 10; 11] 4 2
  = [1; 2; 3; 4; 5; 6; 7; 8; 9; 10] /\
  num_frames [1; 2; 3; 4; 5; 6; 7; 8; 9; 10; 11] 4 2 = 4 /\
  exists frames,
    frame_signal 0 [1; 2; 3; 4; 5; 6; 7; 8; 9; 10; 11] 4 2 = Ok frames /\
    column 0 0 frames = [1; 2; 3; 4] /\
    column 0 1 frames = [3; 4; 5; 6] /\
    column 0 3 frames = [7; 8; 9; 10] /\
    skipn 2 (column 0 0 frames) = firstn 2 (column 0 1 frames).
Proof.
  assert (H1 : 0 < 2) by lia.
  assert (H2 : 2 <= 4) by lia.
  assert (H3 : 4 <= Z.of_nat (length [1; 2; 3; 4; 5; 6; 7; 8; 9; 10; 11]))
    by (cbn; lia).
  destruct (framer_frames 0 [1; 2; 3; 4; 5; 6; 7; 8; 9; 10; 11] 4 2 H1 H2 H3)
    as (Hc & _ & Hn & _ & frames & Hf & _ & _ & Hcol & Hov).
  split; [exact Hc|]. split; [exact Hn|].
  exists frames. split; [exact Hf|].
  split; [exact (proj2 (Hcol 0%nat ltac:(cbn; lia)))|].
  split; [exact (proj2 (Hcol 1%nat ltac:(cbn; lia)))|].
  split; [exact (proj2 (Hcol 3%nat ltac:(cbn; lia)))|].
  exact (proj1 (Hov 0%nat ltac:(cbn; lia))).
Defined.

(** C3, as amended.  For every sample rate [0 <= rate < 2^48] the frame size
    is [int(0.020 * rate)] and the hop size is [int(0.010 * rate)]: the
    binary64 products are truncated, not rounded, which makes them the
    floors of [rate / 50] and [rate / 100]. *)
Theorem sizes_truncate (rate : Z) :
  0 <= rate < 2 ^ 48 ->
  frame_size rate = rate / 50 /\ hop_size rate = rate / 100 /\
  50 * frame_size rate <= rate < 50 * frame_size rate + 50 /\
  100 * hop_size rate <= rate < 100 * hop_size rate + 100.
Proof.
  intros Hr.
  pose proof (frame_size_floor rate Hr) as EF.
  pose proof (hop_size_floor rate Hr) as EH.
  rewrite EF, EH.
  pose proof (Z.mul_div_le rate 50 ltac:(lia)).
  pose proof (Z.mul_succ_div_gt rate 50 ltac:(lia)).
  pose proof (Z.mul_div_le rate 100 ltac:(lia)).
  pose proof (Z.mul_succ_div_gt rate 100 ltac:(lia)).
  repeat split; lia.
Qed.

Lemma sizes_truncate_witness :
  frame_size 8080 = 8080 / 50 /\ hop_size 8080 = 8080 / 100 /\
  50 * frame_size 8080 <= 8080 < 50 * frame_size 8080 + 50 /\
  100 * hop_size 8080 <= 8080 < 100 * hop_size 8080 + 100.
Proof. apply (sizes_truncate 8080). lia. Defined.

(** C3 as stated fails at 8080 Hz: [0.020 * 8080 = 161.6] gives a frame of
    161 samples where rounding gives 162, and [0.010 * 8080 = 80.8] gives a
    hop of 80 where rounding gives 81; neither product is a tie. *)
Lemma sizes_not_rounded :
  frame_size 8080 = 161 /\ rounded_frame_size 8080 = 162 /\
  hop_size 8080 = 80 /\ rounded_hop_size 8080 = 81 /\
  B64.is_tie (B64.mul window_size (B64.of_Z 8080)) = false /\
  B64.is_tie (B64.mul step_size (B64.of_Z 8080)) = false.
Proof. vm_compute. repeat split; reflexivity. Qed.




(** C5.  With [delta_freq = 1 / 0.020 = 50] Hz per bin, a cutoff [f]
    (non-zero, below [2^50] Hz in magnitude) maps to the bin
    [clamp(round(f / delta_freq), 0, num_bins)]; an unset or zero cutoff
    maps to [0] for the low and to [num_bins] for the high side; the
    frequency axis is cut to the rows [[low_bin, high_bin)]; and 100 Hz is
    bin 2, 2000 Hz is bin 40. *)
Theorem crop_bin_mapping {A : Type} (spec : list (list A))
    (low high : option Z) :
  (forall f, low = Some f -> Z.abs f < 2 ^ 50) ->
  (forall f, high = Some f -> Z.abs f < 2 ^ 50) ->
  let num_bins := Z.of_nat (length spec) in
  let bin (cutoff : option Z) (alt : Z) :=
    match cutoff with
    | Some f => if f =? 0 then alt else clamp ((2 * f + 50) / 100) 0 num_bins
    | None => alt
    end in
  delta_freq = B64.of_Z 50 /\
  get_bin num_bins low 0 = bin low 0 /\
  get_bin num_bins high num_bins = bin high num_bins /\
  (forall f alt, f <> 0 -> Z.abs f < 2 ^ 50 ->
     get_bin num_bins (Some f) alt = nearest_bin num_bins f) /\
  crop low high spec
  = firstn (Z.to_nat (bin high num_bins) - Z.to_nat (bin low 0))
           (skipn (Z.to_nat (bin low 0)) spec) /\
  get_bin 161 (Some 100) 0 = 2 /\ get_bin 161 (Some 2000) 161 = 40.
Proof.
  intros Bl Bh num_bins bin.
  assert (Hn : 0 <= num_bins) by (unfold num_bins; lia).
  assert (Hbin : forall c alt, (forall f, c = Some f -> Z.abs f < 2 ^ 50) ->
            get_bin num_bins c alt = bin c alt).
  { intros [f|] alt Hb; [|reflexivity]. unfold bin.
    destruct (f =? 0) eqn:E.
    - unfold get_bin. rewrite E. reflexivity.
    - apply Z.eqb_neq in E.
      exact (get_bin_closed num_bins f alt E (Hb f eq_refl) Hn). }
  split; [vm_compute; reflexivity|].
  split; [apply Hbin; exact Bl|].
  split; [apply Hbin; exact Bh|].
  split.
  { intros f alt Hf Hb.
    pose proof (get_bin_closed num_bins f alt Hf Hb Hn) as E1.
    pose proof (nearest_bin_closed num_bins f Hf Hb Hn) as E2.
    rewrite E1, E2. reflexivity. }
  split.
  { rewrite <- (Hbin low 0 Bl), <- (Hbin high num_bins Bh).
    apply crop_rows. }
  split; vm_compute; reflexivity.
Qed.

Lemma crop_bin_mapping_witness :
  crop (Some 100) (Some 2000) (repeat [0; 0] 161)
  = firstn (40 - 2) (skipn 2 (repeat [0; 0] 161)).
Proof.
  assert (B1 : forall f, Some 100 = Some f -> Z.abs f < 2 ^ 50).
  { intros f E. injection E as <-. reflexivity. }
  assert (B2 : forall f, Some 2000 = Some f -> Z.abs f < 2 ^ 50).
  { intros f E. injection E as <-. reflexivity. }
  exact (proj1 (proj2 (proj2 (proj2 (proj2
           (crop_bin_mapping (repeat [0; 0] 161) (Some 100) (Some 2000)
                             B1 B2)))))).
Defined.

(** C6, as amended.  For every audio buffer with a hop of at least one
    sample and a signal of at least one frame, the ['spec'] feature with
    both cutoffs unset returns a spectrogram of
    [(len - frame_size) // hop_size + 1] time frames, each of
    [frame_size // 2 + 1] frequency bins. *)
Theorem unset_cutoffs_bin_count (a : audio) (kw : kwargs) :
  let len := Z.of_nat (length (signal a)) in
  let frame := frame_size (sample_rate a) in
  let hop := hop_size (sample_rate a) in
  0 < hop -> frame <= len ->
  low_freq kw = None -> high_freq kw = None ->
  exists spec,
    get_audio_features a "spec" kw = Ok (Spec spec) /\
    Z.of_nat (length spec) = (len - frame) / hop + 1 /\
    (0 < length spec)%nat /\
    forall row, In row spec -> Z.of_nat (length row) = frame / 2 + 1.
Proof.
  intros len frame hop Hh Hl Hlow Hhigh.
  pose proof (frame_size_pos (sample_rate a) Hh) as HF. fold frame in HF.
  change (get_audio_features a "spec" kw) with (spec_features a kw).
  set (sig := map Q2R (scale_signal a)).
  assert (Hlen : Z.of_nat (length sig) = len).
  { unfold sig, len. rewrite length_scaled_signal. reflexivity. }
  assert (Hn : num_frames sig frame hop = (len - frame) / hop + 1).
  { rewrite <- Hlen. apply num_frames_value; lia. }
  assert (Hq : 0 <= (len - frame) / hop) by (apply Z.div_pos; lia).
  rewrite (spec_features_framed a kw Hh) by (fold sig; fold frame hop; lia).
  fold sig. fold frame hop. rewrite Hlow, Hhigh.
  eexists. split; [reflexivity|]. split; [|split].
  - unfold log_transpose. rewrite transpose_length. lia.
  - unfold log_transpose. rewrite transpose_length. lia.
  - intros row Hin. apply log_transpose_rows in Hin. rewrite Hin.
    unfold prelog_spectrogram. rewrite crop_unset, length_normalized_power.
    rewrite as_strided_rows. apply half_plus_one. lia.
Qed.

Lemma unset_cutoffs_bin_count_witness :
  0 < hop_size 16000 /\ frame_size 16000 <= 400 /\
  exists spec,
    get_audio_features (mk_audio (repeat 0 400) 16000 16 1) "spec"
                       (mk_kwargs None None None) = Ok (Spec spec) /\
    Z.of_nat (length spec) = (400 - frame_size 16000) / hop_size 16000 + 1 /\
    (0 < length spec)%nat /\
    forall row, In row spec -> Z.of_nat (length row) = frame_size 16000 / 2 + 1.
Proof.
  assert (H1 : 0 < hop_size 16000) by (vm_compute; reflexivity).
  assert (H2 : frame_size 16000 <= 400) by (vm_compute; discriminate).
  split; [exact H1|split; [exact H2|]].
  exact (unset_cutoffs_bin_count (mk_audio (repeat 0 400) 16000 16 1)
           (mk_kwargs None None None) H1 H2 eq_refl eq_refl).
Defined.

(** C6 as stated fails at 60 Hz: the frame is one sample, so a signal of
    five samples is long enough, but the hop is zero and the modulo
    raises. *)
Lemma low_rate_raises :
  frame_size 60 <= Z.of_nat (length (signal (mk_audio [0; 0; 0; 0; 0] 60 16 1)))
  /\ get_audio_features (mk_audio [0; 0; 0; 0; 0] 60 16 1) "spec"
                        (mk_kwargs None None None)
     = Raise ZeroDivisionError.
Proof.
  split; [vm_compute; discriminate|].
  apply spec_features_zero_hop. vm_compute. reflexivity.
Qed.

(** C7, as amended.  For a sample width from 1 to 64 bits and samples of
    at most 53 bits, [scale_signal] returns the signal with every sample
    divided by [2^(sample_width - 1)], without rounding and one value per
    sample; for 16-bit samples the sample 32767 becomes [32767 / 32768],
    which is [2^-15] below [1], and the sample -32768 becomes exactly
    [-1]. *)
Theorem scale_signal_divides (a : audio) :
  1 <= sample_width a <= 64 ->
  Forall (fun s => Z.abs s <= 2 ^ 53) (signal a) ->
  length (scale_signal a) = length (signal a) /\
  Forall2 (fun s q =>
             (q == inject_Z s / inject_Z (2 ^ (sample_width a - 1)))%Q)
          (signal a) (scale_signal a) /\
  forall rate ch,
    exists top bottom,
      scale_signal (mk_audio [32767; -32768] rate 16 ch) = [top; bottom] /\
      (top == 32767 # 32768)%Q /\ (1 - top == 1 # 32768)%Q /\
      (bottom == -1)%Q.
Proof.
  intros Hw Hs.
  split; [unfold scale_signal; apply length_map|].
  split.
  { unfold scale_signal.
    induction Hs as [|s l Hb _ IH]; cbn [map]; constructor; [|exact IH].
    apply scale_sample_exact; [lia|exact Hb]. }
  intros rate ch. eexists. eexists.
  split; [reflexivity|].
  split; [vm_compute; reflexivity|].
  split; vm_compute; reflexivity.
Qed.

Lemma scale_signal_divides_witness :
  1 <= 16 <= 64 /\ Forall (fun s => Z.abs s <= 2 ^ 53) [32767; -32768; 0] /\
  Forall2 (fun s q => (q == inject_Z s / inject_Z (2 ^ (16 - 1)))%Q)
          [32767; -32768; 0]
          (scale_signal (mk_audio [32767; -32768; 0] 44100 16 1)).
Proof.
  assert (H1 : 1 <= 16 <= 64) by lia.
  assert (H2 : Forall (fun s => Z.abs s <= 2 ^ 53) [32767; -32768; 0])
    by (repeat constructor; discriminate).
  split; [exact H1|split; [exact H2|]].
  exact (proj1 (proj2
           (scale_signal_divides (mk_audio [32767; -32768; 0] 44100 16 1)
              H1 H2))).
Defined.

(** C7 as stated fails in two places.  The 16-bit sample 32767 is scaled
    to [1 - 2^-15], which is farther from [1.0] than a floating tolerance
    allows (here the [1e-5 * 1.0 + 1e-8] of [numpy.isclose]).  And a sample
    of more than 53 bits is rounded by the conversion to binary64 before
    the division: the 64-bit sample [2^63 - 1] is scaled to exactly [1.0],
    which is not that sample divided by [2^63]. *)
Lemma scale_signal_not_divided :
  (exists top,
     scale_signal (mk_audio [32767] 44100 16 1) = [top] /\
     (1 - top == 1 # 32768)%Q /\
     ((1 # 100000) * 1 + (1 # 100000000) < 1 - top)%Q) /\
  (exists q,
     scale_signal (mk_audio [2 ^ 63 - 1] 44100 64 1) = [q] /\
     (q == 1)%Q /\
     ~ (q == inject_Z (2 ^ 63 - 1) / inject_Z (2 ^ (64 - 1)))%Q).
Proof.
  split.
  - eexists. split; [reflexivity|].
    split; vm_compute; reflexivity.
  - eexists. split; [reflexivity|].
    split; [vm_compute; reflexivity|].
    vm_compute. discriminate.
Qed.




(** C9, as amended.  On an audio dictionary, or on a file name that
    [load_audio] loads, a feature type other than ["raw"], ["mfcc"] and
    ["spec"] makes [get_audio_features] raise a [ValueError] whose message
    names the type; for one of the three, the call never ends in that
    error. *)
Theorem unsupported_feature_type {segment : Type}
    (pydub : pydub_api segment) (wav_read : string -> attempt wav_file)
    (from_file : string -> attempt segment) (isfile : string -> bool)
    (magic_from_file : string -> attempt string)
    (input : audio_input) (a : audio) (feature_type : string)
    (kw : kwargs) :
  input = Buffer a \/
  (exists filename,
     input = Path filename /\
     fst (load_audio pydub wav_read from_file isfile magic_from_file
            filename) = Done a) ->
  (feature_type <> "raw"%string -> feature_type <> "mfcc"%string ->
   feature_type <> "spec"%string ->
   fst (get_audio_features_input pydub wav_read from_file isfile
          magic_from_file input feature_type kw)
   = Raised (FeatureExn
               (ValueError
                  (String.append "Unsupported feature type: "
                                 feature_type))))
  /\
  (feature_type = "raw"%string \/ feature_type = "mfcc"%string \/
   feature_type = "spec"%string ->
   forall t : string,
     fst (get_audio_features_input pydub wav_read from_file isfile
            magic_from_file input feature_type kw)
     <> Raised (FeatureExn
                  (ValueError
                     (String.append "Unsupported feature type: " t)))).
Proof.
  intros Hin.
  rewrite (input_loaded pydub wav_read from_file isfile magic_from_file
             input a feature_type kw Hin).
  split.
  - intros Hraw Hmfcc Hspec.
    rewrite (dispatch_unsupported a feature_type kw Hraw Hmfcc Hspec).
    reflexivity.
  - intros Hs t.
    pose proof (dispatch_supported a feature_type kw Hs t) as Hne.
    destruct (get_audio_features a feature_type kw) as [f|e];
      [discriminate|].
    intros E. apply Hne. injection E as ->. reflexivity.
Qed.

(** A dictionary, and a mono WAV file that loads, with the type
    ["bogus"]. *)
Lemma unsupported_feature_type_witness :
  fst (get_audio_features_input mono_segments
         (fun _ => Failed (OtherError "ValueError"))
         (fun _ => Failed FileNotFoundError) (fun _ => true)
         (fun _ => Failed FileNotFoundError)
         (Buffer (mk_audio [1; 2; 3] 16000 16 1)) "bogus"
         (mk_kwargs None None None))
  = Raised (FeatureExn (ValueError "Unsupported feature type: bogus")) /\
  fst (get_audio_features_input mono_segments
         (fun _ => Done (mk_wav 8000 (Mono [1; -2; 3]) 2))
         (fun _ => Failed FileNotFoundError) (fun _ => true)
         (fun _ => Done "audio/x-wav"%string)
         (Path "mono.wav") "bogus" (mk_kwargs None None None))
  = Raised (FeatureExn (ValueError "Unsupported feature type: bogus")).
Proof.
  split.
  - apply (proj1 (unsupported_feature_type mono_segments
                    (fun _ => Failed (OtherError "ValueError"))
                    (fun _ => Failed FileNotFoundError) (fun _ => true)
                    (fun _ => Failed FileNotFoundError)
                    (Buffer (mk_audio [1; 2; 3] 16000 16 1))
                    (mk_audio [1; 2; 3] 16000 16 1) "bogus"
                    (mk_kwargs None None None) (or_introl eq_refl)));
      discriminate.
  - apply (proj1 (unsupported_feature_type mono_segments
                    (fun _ => Done (mk_wav 8000 (Mono [1; -2; 3]) 2))
                    (fun _ => Failed FileNotFoundError) (fun _ => true)
                    (fun _ => Done "audio/x-wav"%string)
                    (Path "mono.wav")
                    (mk_audio [1; -2; 3] 8000 (2 * 8) 1) "bogus"
                    (mk_kwargs None None None)
                    (or_intror (ex_intro _ "mono.wav"%string
                                  (conj eq_refl eq_refl)))));
      discriminate.
Defined.

(** C9 as stated fails for a file name that does not load: line 177 runs
    before the feature type is looked at, so for a text file the call with
    the type ["bogus"] raises the [IOError] of [load_audio], not the
    [ValueError]. *)
Lemma unsupported_type_unloaded_file :
  get_audio_features_input mono_segments
    (fun _ => Failed (OtherError "ValueError"))
    (fun _ => Failed FileNotFoundError) (fun _ => true)
    (fun _ => Done "text/plain"%string) (Path "notes.txt") "bogus"
    (mk_kwargs None None None)
  = (Raised (LoadExn (IOError
       "No loader available for filetype (text/plain) for file: notes.txt")),
     []).
Proof. reflexivity. Qed.




(* ================================================================= *)
(** * Further properties of the module *)

(* ----------------------------------------------------------------- *)
(** ** The down-mix of [load_wav] in binary64 *)

Section Downmix.

Import B64 B64Facts.

(** The quotient of two non-negative integers, as doubles, truncates to
    their integer quotient. *)
Lemma to_int_div_nonneg (s c : Z) :
  0 <= s -> 1 <= c <= 2 ^ 16 -> s / c < 2 ^ 32 ->
  to_int (rne_pos (s * U * U) (c * U)) = s / c.
Proof.
  intros Hs Hc Hq. pose proof U_pos as HU.
  set (k := s / c) in *.
  assert (Hk : c * k <= s < c * k + c).
  { unfold k. pose proof (Z.mul_div_le s c ltac:(lia)).
    pose proof (Z.mul_succ_div_gt s c ltac:(lia)). lia. }
  assert (Hk0 : 0 <= k) by (apply Z.div_pos; lia).
  clearbody k.
  assert (R1 : representable (k * 2 ^ 1074))
    by (apply representable_scaled; lia).
  assert (R2 : representable (((k + 1) * 2 ^ 16 - 1) * 2 ^ 1058)).
  { apply representable_scaled; [|lia].
    assert ((k + 1) * 2 ^ 16 <= 2 ^ 32 * 2 ^ 16) by nia. lia. }
  assert (EU : U = 2 ^ 16 * 2 ^ 1058) by (vm_compute; reflexivity).
  assert (HE : 0 < 2 ^ 1058) by (apply pow2_pos; lia).
  change (2 ^ 1074) with U in R1.
  set (E := 2 ^ 1058) in *. clearbody E.
  assert (Hn : 0 <= s * U * U).
  { apply Z.mul_nonneg_nonneg; [apply Z.mul_nonneg_nonneg|]; lia. }
  assert (Hd : 0 < c * U) by (apply Z.mul_pos_pos; lia).
  assert (Hck : c * k <= s) by lia.
  assert (Hup : s * 2 ^ 16 <= ((k + 1) * 2 ^ 16 - 1) * c).
  { assert (s + 1 <= c * (k + 1)) by lia.
    assert ((s + 1) * 2 ^ 16 <= c * (k + 1) * 2 ^ 16)
      by (apply Z.mul_le_mono_nonneg_r; lia).
    lia. }
  apply to_int_floor; [lia|]. split.
  - apply rne_pos_ge; auto.
    replace (k * U * (c * U)) with (c * k * (U * U)) by ring.
    replace (s * U * U) with (s * (U * U)) by ring.
    apply Z.mul_le_mono_nonneg_r; [|lia].
    apply Z.mul_nonneg_nonneg; lia.
  - apply Z.le_lt_trans with (((k + 1) * 2 ^ 16 - 1) * E).
    + apply rne_pos_le; auto.
      replace (s * U * U) with (s * U * U) by ring.
      replace (((k + 1) * 2 ^ 16 - 1) * E * (c * U))
        with ((((k + 1) * 2 ^ 16 - 1) * c) * E * U) by ring.
      apply Z.mul_le_mono_nonneg_r; [lia|].
      rewrite EU.
      replace (s * (2 ^ 16 * E)) with (s * 2 ^ 16 * E) by ring.
      apply Z.mul_le_mono_nonneg_r; lia.
    + rewrite EU.
      replace ((k + 1) * (2 ^ 16 * E)) with ((k + 1) * 2 ^ 16 * E) by ring.
      apply Z.mul_lt_mono_pos_r; lia.
Qed.

(** [int(float(s) / float(c))] is the quotient of [s] by [c], rounded
    toward zero. *)
Lemma to_int_div_quot (s c : Z) :
  1 <= c <= 2 ^ 16 -> Z.abs s <= c * 2 ^ 31 ->
  to_int (div (of_Z s) (of_Z c)) = Z.quot s c.
Proof.
  intros Hc Hs. pose proof U_pos as HU.
  assert (Hs53 : Z.abs s < 2 ^ 53).
  { assert (c * 2 ^ 31 <= 2 ^ 16 * 2 ^ 31) by nia. lia. }
  assert (Ec : of_Z c = c * U) by (apply of_Z_exact; lia).
  assert (Es : of_Z s = s * U) by (apply of_Z_exact_signed; exact Hs53).
  rewrite Ec, Es. unfold div.
  replace (c * U <? 0) with false by (symmetry; apply Z.ltb_ge; nia).
  assert (Hq : Z.abs s / c < 2 ^ 32).
  { apply Z.div_lt_upper_bound; lia. }
  unfold rne. destruct (Z_lt_ge_dec s 0) as [Hneg|Hpos].
  - replace (s * U * U <? 0) with true.
    2:{ symmetry. apply Z.ltb_lt.
        assert (0 < - s * (U * U))
          by (apply Z.mul_pos_pos; [lia|apply Z.mul_pos_pos; lia]).
        lia. }
    replace (- (s * U * U)) with (- s * U * U) by ring.
    unfold to_int. rewrite Z.quot_opp_l by lia. fold (to_int (rne_pos (- s * U * U) (c * U))).
    rewrite to_int_div_nonneg; try lia.
    + rewrite <- Z.quot_div_nonneg by lia. rewrite Z.quot_opp_l by lia. lia.
    + replace (- s) with (Z.abs s) by lia. exact Hq.
  - replace (s * U * U <? 0) with false.
    2:{ symmetry. apply Z.ltb_ge.
        apply Z.mul_nonneg_nonneg; [apply Z.mul_nonneg_nonneg|]; lia. }
    rewrite to_int_div_nonneg; try lia.
    + symmetry. apply Z.quot_div_nonneg; lia.
    + replace s with (Z.abs s) at 1 by lia. exact Hq.
Qed.

End Downmix.

Section RowSums.

(** The sum of a row lies between the multiples of its bounds. *)
Lemma sum_Z_bounds (lo hi : Z) (row : list Z) :
  Forall (fun v => lo <= v <= hi) row ->
  Z.of_nat (length row) * lo <= sum_Z row <= Z.of_nat (length row) * hi.
Proof.
  induction 1 as [|v row Hv _ IH]; [cbn; lia|].
  cbn [length sum_Z fold_right]. fold (sum_Z row).
  rewrite Nat2Z.inj_succ. lia.
Qed.

End RowSums.

(* ----------------------------------------------------------------- *)
(** ** One frame at a time *)

Section FrameLocality.

Local Open Scope R_scope.

Lemma length_column {A : Type} (d : A) (i : nat) (M : list (list A)) :
  length (column d i M) = length M.
Proof. unfold column. apply length_map. Qed.

(** Column [i] of the windowed frames is the windowed column [i]. *)
Lemma column_apply_window (frames : list (list R)) (i : nat) :
  column 0 i (apply_window (hanning (length frames)) frames)
  = windowed (column 0 i frames).
Proof.
  unfold windowed. rewrite length_column.
  generalize (hanning (length frames)) as w.
  unfold column, apply_window.
  induction frames as [|row frames IH]; intros [|wk w]; try reflexivity.
  cbn [map combine fst snd]. f_equal; [|apply IH].
  apply (nth_map_default (fun x => x * wk) row i 0 0). lra.
Qed.

(** The rows of the normalised power spectrum, entry by entry. *)
Lemma normalized_power_entries (frames : list (list R)) (cols : nat)
    (rate : Z) :
  normalized_power frames cols rate
  = map (fun j => map (fun i => bin_power rate (column 0 i frames) j)
                      (seq 0 cols))
        (seq 0 (Nat.div (length frames) 2 + 1)).
Proof.
  unfold normalized_power. rewrite normalize_rows, length_power_spectrum.
  apply map_ext_in. intros j Hj. apply in_seq in Hj.
  unfold power_spectrum, rfft_axis0. rewrite map_map.
  assert (Hl : length (apply_window (hanning (length frames)) frames)
               = length frames).
  { unfold apply_window.
    rewrite length_map, length_combine, length_hanning. apply Nat.min_id. }
  rewrite Hl.
  rewrite (nth_map_seq _ (Nat.div (length frames) 2 + 1) j []) by lia.
  rewrite !map_map. apply map_ext. intros i.
  unfold bin_power, bin_divisor.
  rewrite column_apply_window, length_column.
  destruct (Nat.leb 1 j) eqn:E1;
    destruct (Nat.ltb j (Nat.div (length frames) 2 + 1 - 1)) eqn:E2;
    cbn [andb].
  - apply Nat.leb_le in E1. apply Nat.ltb_lt in E2.
    replace (Nat.eqb j 0) with false by (symmetry; apply Nat.eqb_neq; lia).
    replace (Nat.eqb j (Nat.div (length frames) 2 + 1 - 1)) with false
      by (symmetry; apply Nat.eqb_neq; lia).
    reflexivity.
  - apply Nat.leb_le in E1. apply Nat.ltb_ge in E2.
    replace (Nat.eqb j (Nat.div (length frames) 2 + 1 - 1)) with true
      by (symmetry; apply Nat.eqb_eq; lia).
    rewrite orb_true_r. reflexivity.
  - apply Nat.leb_gt in E1.
    replace (Nat.eqb j 0) with true by (symmetry; apply Nat.eqb_eq; lia).
    reflexivity.
  - apply Nat.leb_gt in E1.
    replace (Nat.eqb j 0) with true by (symmetry; apply Nat.eqb_eq; lia).
    reflexivity.
Qed.

(** The crop of a table of rows keeps the rows of the kept bins. *)
Lemma crop_table {A : Type} (low high : option Z) (f : nat -> list A)
    (bins : nat) :
  crop low high (map f (seq 0 bins)) = map f (kept_bins low high bins).
Proof.
  unfold crop, kept_bins. rewrite length_map, length_seq.
  destruct (truthy low || truthy high); [|reflexivity].
  rewrite slice_map.
  unfold slice. rewrite length_seq. reflexivity.
Qed.

(** The spectrogram of a frame matrix, entry by entry. *)
Lemma spectrogram_entries (low high : option Z) (frames : list (list R))
    (cols : nat) (rate : Z) :
  log_transpose cols (prelog_spectrogram low high frames cols rate)
  = map (fun i =>
           map (fun j => ln (bin_power rate (column 0 i frames) j + 1e-14))
               (kept_bins low high (Nat.div (length frames) 2 + 1)))
        (seq 0 cols).
Proof.
  unfold prelog_spectrogram. rewrite normalized_power_entries, crop_table.
  unfold log_transpose, transpose.
  apply map_ext_in. intros i Hi. apply in_seq in Hi.
  unfold column. rewrite !map_map. apply map_ext. intros j.
  rewrite map_map.
  apply (nth_map_seq
           (fun i' => ln (bin_power rate
                            (map (fun row => nth i' row 0) frames) j + 1e-14))
           cols i 0).
  lia.
Qed.

(** The row of one frame, bin by bin. *)
Lemma frame_spectrum_bins (rate : Z) (low high : option Z) (x : list R) :
  frame_spectrum rate low high x
  = map (fun j => ln (bin_power rate x j + 1e-14))
        (kept_bins low high (Nat.div (length x) 2 + 1)).
Proof.
  unfold frame_spectrum. rewrite spectrogram_entries.
  cbn [seq map nth]. rewrite length_map.
  apply map_ext. intros j.
  unfold column. rewrite map_map. cbn [nth]. rewrite map_id. reflexivity.
Qed.

(** Every time frame of the spectrogram is the row of its own frame. *)
Lemma spectrogram_by_frame (low high : option Z) (frames : list (list R))
    (cols : nat) (rate : Z) :
  log_transpose cols (prelog_spectrogram low high frames cols rate)
  = map (fun i => frame_spectrum rate low high (column 0 i frames))
        (seq 0 cols).
Proof.
  rewrite spectrogram_entries. apply map_ext. intros i.
  rewrite frame_spectrum_bins, length_column. reflexivity.
Qed.

End FrameLocality.

(* ----------------------------------------------------------------- *)
(** ** Frames as windows of the signal *)

Section Windows.

Context {A : Type}.
Variable d : A.

Lemma firstn_skipn_prefix (l : list A) (m a n : nat) :
  (a + n <= m)%nat ->
  firstn n (skipn a (firstn m l)) = firstn n (skipn a l).
Proof.
  intros Hm. rewrite skipn_firstn_comm, firstn_firstn.
  f_equal. lia.
Qed.


(** With at least one full frame, column [i] of the frame matrix is the
    window of the signal that starts [i] hops in. *)
Lemma frame_column (sig : list A) (F H : Z) (i : nat) :
  0 < H -> 0 <= F -> F <= Z.of_nat (length sig) ->
  (i < Z.to_nat (num_frames sig F H))%nat ->
  column d i (as_strided d (clean_signal sig F H) (Z.to_nat F)
                         (Z.to_nat (num_frames sig F H)) 1 (Z.to_nat H))
  = firstn (Z.to_nat F) (skipn (i * Z.to_nat H) sig).
Proof.
  intros HH HF0 HF Hi.
  pose proof (remove_count_bounds sig F H HH) as Hb.
  pose proof (remove_count_split sig F H HH) as Hs.
  pose proof (clean_signal_prefix sig F H HH HF HF0) as Hc.
  pose proof (num_frames_value sig F H HH HF HF0) as Hn.
  rewrite Hn in Hi |- *.
  set (L := Z.of_nat (length sig)) in *.
  set (r := remove_count sig F H) in *.
  assert (Hq : 0 <= (L - F) / H) by (apply Z.div_pos; lia).
  set (q := (L - F) / H) in *.
  assert (Hin : (i * Z.to_nat H + Z.to_nat F <= Z.to_nat (L - r))%nat).
  { apply Nat2Z.inj_le.
    rewrite Nat2Z.inj_add, Nat2Z.inj_mul, !Z2Nat.id by lia.
    assert (Z.of_nat i <= q) by lia. clearbody q r. nia. }
  rewrite column_as_strided by exact Hi.
  rewrite map_nth_window.
  - rewrite Hc. apply firstn_skipn_prefix. exact Hin.
  - rewrite Hc, length_firstn. unfold L in Hin. clearbody r q. lia.
Qed.

End Windows.

Section SlidingWindow.

Variables (a : audio) (kw : kwargs).

(** The call on a signal of at least one frame: one row for each window of
    [frame_size] samples, a hop apart. *)
Lemma spec_features_windows :
  let sig := map Q2R (scale_signal a) in
  let frame := frame_size (sample_rate a) in
  let hop := hop_size (sample_rate a) in
  let len := Z.of_nat (length (signal a)) in
  0 < hop -> frame <= len ->
  spec_features a kw
  = Ok (Spec (map (fun i =>
                     frame_spectrum (sample_rate a) (low_freq kw) (high_freq kw)
                       (firstn (Z.to_nat frame)
                               (skipn (i * Z.to_nat hop) sig)))
                  (seq 0 (Z.to_nat ((len - frame) / hop + 1))))).
Proof.
  intros sig frame hop len Hh Hl.
  pose proof (frame_size_pos (sample_rate a) Hh) as HF. fold frame in HF.
  assert (Hlen : Z.of_nat (length sig) = len).
  { unfold sig, len. rewrite length_scaled_signal. reflexivity. }
  assert (Hn : num_frames sig frame hop = (len - frame) / hop + 1).
  { rewrite <- Hlen. apply num_frames_value; lia. }
  assert (Hq : 0 <= (len - frame) / hop) by (apply Z.div_pos; lia).
  rewrite (spec_features_framed a kw Hh) by (fold sig; fold frame hop; lia).
  fold sig. fold frame hop.
  rewrite spectrogram_by_frame. rewrite <- Hn.
  do 2 f_equal. apply map_ext_in. intros i Hi. apply in_seq in Hi.
  f_equal. apply frame_column; lia.
Qed.

End SlidingWindow.

(* ----------------------------------------------------------------- *)
(** ** The ['spec'] call in one piece, and what leaves it unchanged *)

Section NormalForm.

Variables (a : audio) (kw : kwargs).

(** The ['spec'] call in one piece: the three ways it raises, and one row
    for each column of the frame matrix otherwise. *)
Lemma spec_features_cases :
  let sig := map Q2R (scale_signal a) in
  let frame := frame_size (sample_rate a) in
  let hop := hop_size (sample_rate a) in
  let n := num_frames (signal a) frame hop in
  let frames :=
    as_strided 0%R (clean_signal sig frame hop) (Z.to_nat frame)
               (Z.to_nat n) 1 (Z.to_nat hop) in
  spec_features a kw
  = if hop =? 0 then Raise ZeroDivisionError
    else if (frame <? 0) || (n <? 0)
    then Raise (ValueError "negative dimensions are not allowed")
    else if frame <? 1
    then Raise (ValueError "Invalid number of FFT data points (0) specified.")
    else Ok (Spec (map (fun i =>
                          frame_spectrum (sample_rate a) (low_freq kw)
                                         (high_freq kw) (column 0%R i frames))
                       (seq 0 (Z.to_nat n)))).
Proof.
  intros sig frame hop n frames.
  assert (En : num_frames sig frame hop = n) by apply num_frames_scaled.
  unfold spec_features, frame_signal. fold sig frame hop.
  rewrite En.
  destruct (hop =? 0); [reflexivity|].
  destruct ((frame <? 0) || (n <? 0)); [reflexivity|].
  destruct (frame <? 1); [reflexivity|].
  rewrite spectrogram_by_frame. reflexivity.
Qed.

End NormalForm.

Section Invariance.

Local Open Scope R_scope.

Lemma as_strided_map {A B : Type} (g : A -> B) (d : A) (x : list A)
    (rows cols s0 s1 : nat) :
  as_strided (g d) (map g x) rows cols s0 s1
  = map (map g) (as_strided d x rows cols s0 s1).
Proof.
  unfold as_strided. rewrite map_map. apply map_ext. intros k.
  rewrite map_map. apply map_ext. intros i. apply map_nth.
Qed.

Lemma column_map {A B : Type} (g : A -> B) (d : A) (i : nat)
    (M : list (list A)) :
  column (g d) i (map (map g) M) = map g (column d i M).
Proof.
  unfold column. rewrite !map_map. apply map_ext. intros row.
  apply map_nth.
Qed.

Lemma windowed_opp (x : list R) :
  windowed (map Ropp x) = map (Rmult (-1)) (windowed x).
Proof.
  unfold windowed. rewrite length_map.
  generalize (hanning (length x)) as w.
  induction x as [|v x IH]; intros [|wk w]; try reflexivity.
  cbn [map combine fst snd]. f_equal; [lra|apply IH].
Qed.

(** A frame and its negation have the same normalised power. *)
Lemma bin_power_opp (rate : Z) (x : list R) (j : nat) :
  bin_power rate (map Ropp x) j = bin_power rate x j.
Proof.
  unfold bin_power. rewrite length_map, windowed_opp, dft_power_scaled.
  f_equal. ring.
Qed.

Lemma frame_spectrum_opp (rate : Z) (low high : option Z) (x : list R) :
  frame_spectrum rate low high (map Ropp x) = frame_spectrum rate low high x.
Proof.
  rewrite !frame_spectrum_bins, length_map.
  apply map_ext. intros j. rewrite bin_power_opp. reflexivity.
Qed.




Lemma scaled_signal_opp (sig : list Z) (rate width ch : Z) :
  map Q2R (scale_signal (mk_audio (map Z.opp sig) rate width ch))
  = map Ropp (map Q2R (scale_signal (mk_audio sig rate width ch))).
Proof.
  unfold scale_signal. cbn [signal sample_width]. rewrite !map_map.
  apply map_ext. intros s. apply scale_sample_opp.
Qed.


End Invariance.

(* ----------------------------------------------------------------- *)
(** ** Locality in time *)




Lemma scaled_signal_firstn (sig : list Z) (m : nat) (rate width ch : Z) :
  map Q2R (scale_signal (mk_audio (firstn m sig) rate width ch))
  = firstn m (map Q2R (scale_signal (mk_audio sig rate width ch))).
Proof.
  unfold scale_signal. cbn [signal sample_width].
  rewrite !firstn_map. reflexivity.
Qed.







(** X4.  The samples that line 207 cleaves off have no effect: the call on
    the cleaned signal returns what the call on the whole signal
    returns. *)
Theorem spec_tail_ignored (sig : list Z) (rate width ch : Z) (kw : kwargs) :
  0 < hop_size rate -> frame_size rate <= Z.of_nat (length sig) ->
  get_audio_features
    (mk_audio (clean_signal sig (frame_size rate) (hop_size rate))
              rate width ch) "spec" kw
  = get_audio_features (mk_audio sig rate width ch) "spec" kw.
Proof.
  intros Hh Hl.
  pose proof (frame_size_pos rate Hh) as HF.
  set (F := frame_size rate) in *. set (H := hop_size rate) in *.
  pose proof (remove_count_bounds sig F H Hh) as Hb.
  pose proof (remove_count_split sig F H Hh) as Hs.
  pose proof (clean_signal_prefix sig F H Hh Hl ltac:(lia)) as Hc.
  pose proof (clean_signal_length sig F H Hh Hl ltac:(lia)) as Hcl.
  set (L := Z.of_nat (length sig)) in *.
  set (r := remove_count sig F H) in *.
  assert (Hq : 0 <= (L - F) / H) by (apply Z.div_pos; lia).
  assert (Hl2 : F <= Z.of_nat (length (clean_signal sig F H))).
  { rewrite Hcl. clearbody r. nia. }
  pose proof (spec_features_windows (mk_audio sig rate width ch) kw Hh Hl)
    as E.
  pose proof (spec_features_windows
                (mk_audio (clean_signal sig F H) rate width ch) kw Hh Hl2)
    as E'.
  cbn [signal sample_rate] in E, E'. fold F H L in E, E'.
  change (get_audio_features ?x "spec" kw) with (spec_features x kw).
  clearbody F H.
  rewrite E, E'. rewrite Hcl.
  assert (Eq : (L - r - F) / H = (L - F) / H).
  { replace (L - r - F) with ((L - F) / H * H) by lia.
    apply Z.div_mul. lia. }
  rewrite Eq. do 2 f_equal.
  apply map_ext_in. intros i Hi. apply in_seq in Hi. f_equal.
  rewrite Hc, scaled_signal_firstn. apply firstn_skipn_prefix.
  apply Nat2Z.inj_le.
  rewrite Nat2Z.inj_add, Nat2Z.inj_mul, !Z2Nat.id by lia.
  assert (Z.of_nat i <= (L - F) / H) by lia.
  assert (Z.of_nat i * H <= (L - F) / H * H)
    by (apply Z.mul_le_mono_nonneg_r; lia).
  lia.
Qed.

Lemma spec_tail_ignored_witness :
  0 < hop_size 200 /\ frame_size 200 <= 5 /\
  clean_signal [1; 2; 3; 4; 5] (frame_size 200) (hop_size 200) = [1; 2; 3; 4] /\
  get_audio_features
    (mk_audio (clean_signal [1; 2; 3; 4; 5] (frame_size 200) (hop_size 200))
              200 16 1) "spec" (mk_kwargs None None None)
  = get_audio_features (mk_audio [1; 2; 3; 4; 5] 200 16 1) "spec"
                       (mk_kwargs None None None).
Proof.
  assert (H1 : 0 < hop_size 200) by (vm_compute; reflexivity).
  assert (H2 : frame_size 200 <= 5) by (vm_compute; discriminate).
  split; [exact H1|split; [exact H2|]].
  split; [vm_compute; reflexivity|].
  exact (spec_tail_ignored [1; 2; 3; 4; 5] 200 16 1
           (mk_kwargs None None None) H1 H2).
Defined.

(* ----------------------------------------------------------------- *)
(** ** Polarity and silence *)

(** X5.  Negating every sample changes nothing: the ['spec'] call on the
    inverted signal has the outcome (spectrogram or exception) of the
    call on the signal. *)
Theorem spec_polarity (sig : list Z) (rate width ch : Z) (kw : kwargs) :
  get_audio_features (mk_audio (map Z.opp sig) rate width ch) "spec" kw
  = get_audio_features (mk_audio sig rate width ch) "spec" kw.
Proof.
  change (get_audio_features ?x "spec" kw) with (spec_features x kw).
  rewrite !spec_features_cases. cbn [signal sample_rate].
  rewrite num_frames_map.
  set (F := frame_size rate). set (H := hop_size rate). clearbody F H.
  destruct (H =? 0); [reflexivity|].
  destruct ((F <? 0) || (num_frames sig F H <? 0)); [reflexivity|].
  destruct (F <? 1); [reflexivity|].
  do 2 f_equal. apply map_ext. intros i.
  rewrite scaled_signal_opp, clean_signal_map.
  rewrite <- Ropp_0 at 1 2.
  rewrite (as_strided_map Ropp), (column_map Ropp).
  apply frame_spectrum_opp.
Qed.




(* ----------------------------------------------------------------- *)
(** ** Keyword arguments and shape *)

Section KeptBins.

(** How many bins the crop keeps. *)
Lemma length_kept_bins (low high : option Z) (bins : nat) :
  length (kept_bins low high bins)
  = (Z.to_nat (get_bin (Z.of_nat bins) high (Z.of_nat bins))
     - Z.to_nat (get_bin (Z.of_nat bins) low 0))%nat.
Proof.
  pose proof (crop_rows (map (fun j : nat => [j]) (seq 0 bins)) low high) as E.
  rewrite crop_table in E. rewrite length_map, length_seq in E.
  apply (f_equal (@length _)) in E.
  rewrite length_map in E. rewrite E.
  pose proof (get_bin_range (Z.of_nat bins) low 0 ltac:(lia) ltac:(lia)).
  pose proof (get_bin_range (Z.of_nat bins) high (Z.of_nat bins)
                ltac:(lia) ltac:(lia)).
  rewrite length_firstn, length_skipn, length_map, length_seq. lia.
Qed.

Lemma or_none_truthy (v : option Z) : truthy (or_none v) = truthy v.
Proof.
  unfold or_none. destruct (truthy v) eqn:E; [exact E|reflexivity].
Qed.

Lemma get_bin_or_none (num_bins : Z) (v : option Z) (alt : Z) :
  get_bin num_bins (or_none v) alt = get_bin num_bins v alt.
Proof.
  unfold or_none. destruct v as [x|]; [|reflexivity]. cbn [truthy].
  destruct (x =? 0) eqn:E; cbn [negb]; [|reflexivity].
  cbn [get_bin]. rewrite E. reflexivity.
Qed.

(** A cutoff of zero crops like no cutoff. *)
Lemma crop_or_none {A : Type} (low high : option Z) (M : list (list A)) :
  crop (or_none low) (or_none high) M = crop low high M.
Proof.
  unfold crop. rewrite !or_none_truthy, !get_bin_or_none. reflexivity.
Qed.

Lemma or_default_or_none (v : option Z) (alt : Z) :
  or_default (or_none v) alt = or_default v alt.
Proof.
  unfold or_none. destruct v as [x|]; [|reflexivity]. cbn [truthy].
  destruct (x =? 0) eqn:E; cbn [negb or_default]; [|reflexivity].
  rewrite E. reflexivity.
Qed.

Lemma or_none_idem (v : option Z) : or_none (or_none v) = or_none v.
Proof.
  unfold or_none at 1. rewrite or_none_truthy. unfold or_none.
  destruct (truthy v); reflexivity.
Qed.

End KeptBins.

(** X12.  A keyword argument given as [0] is as good as not given: for every
    feature type, replacing each zero-valued [features], [low_freq] and
    [high_freq] by [None] leaves the outcome of the call unchanged. *)
Theorem zero_option_is_unset (a : audio) (feature_type : string)
    (kw : kwargs) :
  get_audio_features a feature_type
    (mk_kwargs (or_none (features kw)) (or_none (low_freq kw))
               (or_none (high_freq kw)))
  = get_audio_features a feature_type kw.
Proof.
  unfold get_audio_features.
  destruct (String.eqb feature_type "raw"); [reflexivity|].
  destruct (String.eqb feature_type "mfcc").
  - cbn [features low_freq high_freq].
    rewrite !or_default_or_none, or_none_idem. reflexivity.
  - destruct (String.eqb feature_type "spec"); [|reflexivity].
    unfold spec_features. cbn [features low_freq high_freq].
    destruct (frame_signal _ _ _ _); [|reflexivity].
    destruct (_ <? 1); [reflexivity|].
    unfold prelog_spectrogram. rewrite crop_or_none. reflexivity.
Qed.

(** X8.  The shape of every spectrogram the ['spec'] call returns: its rows
    are the [num_frames] of line 214, and every row has
    [get_bin(high_freq, num_bins) - get_bin(low_freq, 0)] entries (none
    when the bins are inverted), with [num_bins = frame_size // 2 + 1]. *)
Theorem spec_shape (a : audio) (kw : kwargs) (s : list (list R)) :
  let frame := frame_size (sample_rate a) in
  let hop := hop_size (sample_rate a) in
  let bins := frame / 2 + 1 in
  get_audio_features a "spec" kw = Ok (Spec s) ->
  Z.of_nat (length s) = num_frames (signal a) frame hop /\
  Forall (fun row =>
            length row
            = (Z.to_nat (get_bin bins (high_freq kw) bins)
               - Z.to_nat (get_bin bins (low_freq kw) 0))%nat) s.
Proof.
  intros frame hop bins.
  change (get_audio_features a "spec" kw) with (spec_features a kw).
  rewrite spec_features_cases. fold frame hop. clearbody frame hop.
  destruct (hop =? 0); [discriminate|].
  destruct (frame <? 0) eqn:E0; [discriminate|].
  destruct (num_frames (signal a) frame hop <? 0) eqn:E1; [discriminate|].
  cbn [orb].
  destruct (frame <? 1) eqn:E2; [discriminate|].
  apply Z.ltb_ge in E0, E1, E2.
  intros E. injection E as <-.
  split; [rewrite length_map, length_seq; lia|].
  apply Forall_forall. intros row Hrow. apply in_map_iff in Hrow.
  destruct Hrow as (i & <- & _).
  rewrite frame_spectrum_bins, length_map, length_kept_bins.
  rewrite length_column, as_strided_rows.
  rewrite half_plus_one by lia. reflexivity.
Qed.

Lemma spec_shape_witness :
  exists s,
    get_audio_features (mk_audio [5; -7; 9; 2] 150 16 1) "spec"
                       (mk_kwargs None (Some 50) None) = Ok (Spec s) /\
    Z.of_nat (length s)
    = num_frames [5; -7; 9; 2] (frame_size 150) (hop_size 150) /\
    Forall (fun row =>
              length row
              = (Z.to_nat (get_bin (frame_size 150 / 2 + 1) None
                                   (frame_size 150 / 2 + 1))
                 - Z.to_nat (get_bin (frame_size 150 / 2 + 1) (Some 50%Z) 0))%nat)
           s.
Proof.
  assert (H1 : 0 < hop_size 150) by (vm_compute; reflexivity).
  assert (H2 : frame_size 150 <= 4) by (vm_compute; discriminate).
  pose proof (spec_features_windows (mk_audio [5; -7; 9; 2] 150 16 1)
                (mk_kwargs None (Some 50) None) H1 H2) as E.
  eexists. split; [exact E|].
  exact (spec_shape (mk_audio [5; -7; 9; 2] 150 16 1)
           (mk_kwargs None (Some 50) None) _ E).
Defined.

(* ----------------------------------------------------------------- *)
(** ** The floor of the power *)

Section PowerFloor.

Local Open Scope R_scope.



End PowerFloor.

(* ----------------------------------------------------------------- *)
(** ** Values, sizes and outcomes *)



(** X11.  The divisor [scale] of lines 228-231.  For a sample rate from 100
    to 149 Hz the frame has two samples, [numpy.hanning(2)] is [[0, 0]]
    and [scale] is zero, so lines 230-231 divide by zero; from 150 Hz on
    the frame has at least three samples and [scale] is positive. *)
Theorem window_scale_sign (rate : Z) :
  100 <= rate < 2 ^ 48 ->
  let scale :=
    window_scale (hanning (Z.to_nat (frame_size rate))) rate in
  (rate < 150 -> frame_size rate = 2 /\ scale = 0%R) /\
  (150 <= rate -> 3 <= frame_size rate /\ (0 < scale)%R).
Proof.
  intros Hr scale.
  pose proof (frame_size_floor rate ltac:(lia)) as EF.
  split; intros Hc.
  - assert (E2 : frame_size rate = 2).
    { rewrite EF. symmetry. apply (Z.div_unique rate 50 2 (rate - 100)); lia. }
    split; [exact E2|]. unfold scale. rewrite E2.
    change (Z.to_nat 2) with 2%nat.
    rewrite window_scale_sum_sq, window_energy_two. ring.
  - assert (H3 : 3 <= frame_size rate).
    { rewrite EF. apply Z.div_le_lower_bound; lia. }
    split; [exact H3|]. unfold scale. rewrite window_scale_sum_sq.
    apply Rmult_lt_0_compat.
    + apply window_energy_pos. right. lia.
    + apply IZR_lt. lia.
Qed.

Lemma window_scale_sign_witness :
  100 <= 120 < 2 ^ 48 /\ 120 < 150 /\
  frame_size 120 = 2 /\
  Spectral.window_scale
    (Spectral.hanning (Z.to_nat (frame_size 120))) 120 = 0%R.
Proof.
  assert (Hr : 100 <= 120 < 2 ^ 48) by (split; [lia|reflexivity]).
  assert (Hl : 120 < 150) by lia.
  split; [exact Hr|split; [exact Hl|]].
  exact (proj1 (window_scale_sign 120 Hr) Hl).
Defined.

(** X10.  For every sample rate below [2^48] the frame is two hops long, or
    two hops and one sample: consecutive frames overlap by half a frame,
    rounded up. *)
Theorem frame_twice_hop (rate : Z) :
  0 <= rate < 2 ^ 48 ->
  frame_size rate = 2 * hop_size rate \/
  frame_size rate = 2 * hop_size rate + 1.
Proof.
  intros Hr.
  pose proof (frame_size_floor rate Hr) as EF.
  pose proof (hop_size_floor rate Hr) as EH.
  rewrite EF, EH.
  pose proof (Z.mul_div_le rate 100 ltac:(lia)).
  pose proof (Z.mul_succ_div_gt rate 100 ltac:(lia)).
  pose proof (Z.mul_div_le rate 50 ltac:(lia)).
  pose proof (Z.mul_succ_div_gt rate 50 ltac:(lia)).
  lia.
Qed.

Lemma frame_twice_hop_witness :
  0 <= 150 < 2 ^ 48 /\
  (frame_size 150 = 2 * hop_size 150 \/
   frame_size 150 = 2 * hop_size 150 + 1).
Proof.
  assert (Hr : 0 <= 150 < 2 ^ 48) by (split; [lia|reflexivity]).
  split; [exact Hr|].
  exact (frame_twice_hop 150 Hr).
Defined.



(** X13.  The ['mfcc'] branch hands the signal and the sample rate to
    [python_speech_features.mfcc] unchanged, always asks for twice as many
    filters as cepstral coefficients, never asks for zero coefficients (a
    missing or zero [features] becomes 13), and never passes a high
    cutoff of zero (a missing or zero one becomes [None]). *)
Theorem mfcc_forwarding (a : audio) (kw : kwargs) :
  exists numcep lowfreq highfreq,
    get_audio_features a "mfcc" kw
    = Ok (Mfcc (signal a) (sample_rate a) numcep (2 * numcep)
               lowfreq highfreq) /\
    numcep <> 0 /\ highfreq <> Some 0 /\
    (features kw = None \/ features kw = Some 0 -> numcep = 13) /\
    (low_freq kw = None -> lowfreq = 0) /\
    (high_freq kw = None \/ high_freq kw = Some 0 -> highfreq = None).
Proof.
  exists (or_default (features kw) 13), (or_default (low_freq kw) 0),
         (or_none (high_freq kw)).
  split.
  { change (get_audio_features a "mfcc" kw)
      with (Ok (Mfcc (signal a) (sample_rate a) (or_default (features kw) 13)
                     (or_default (features kw) 13 * 2)
                     (or_default (low_freq kw) 0) (or_none (high_freq kw)))).
    rewrite Z.mul_comm. reflexivity. }
  split.
  { destruct (features kw) as [x|]; cbn [or_default]; [|lia].
    destruct (x =? 0) eqn:E; [lia|]. apply Z.eqb_neq. exact E. }
  split.
  { unfold or_none, truthy. destruct (high_freq kw) as [x|]; [|discriminate].
    destruct (x =? 0) eqn:E; cbn [negb]; [discriminate|].
    intros Hx. injection Hx as Hx. rewrite Hx in E. discriminate E. }
  split.
  { intros [->| ->]; reflexivity. }
  split.
  { intros ->. reflexivity. }
  intros [->| ->]; reflexivity.
Qed.

(* ----------------------------------------------------------------- *)
(** ** Scaling and loading *)

Section ScaleRange.

Lemma scaled_sample_range (s P : Z) :
  0 < P -> - P <= s < P ->
  (-1 <= inject_Z s / inject_Z P /\ inject_Z s / inject_Z P < 1)%Q.
Proof.
  intros HP Hs.
  assert (HQ : (0 < inject_Z P)%Q).
  { change 0%Q with (inject_Z 0). rewrite <- Zlt_Qlt. exact HP. }
  split.
  - apply Qle_shift_div_l; [exact HQ|].
    setoid_replace (-1 * inject_Z P)%Q with (inject_Z (- P))
      by (rewrite inject_Z_opp; ring).
    rewrite <- Zle_Qle. lia.
  - apply Qlt_shift_div_r; [exact HQ|].
    rewrite Qmult_1_l. rewrite <- Zlt_Qlt. lia.
Qed.

End ScaleRange.

(** X14.  For a sample width from 1 to 54 bits, [scale_signal] maps samples
    that fit the width, [-2^(w-1) <= s < 2^(w-1)], into [[-1, 1)]: the
    value [+1] of the docstring is never reached.  (Wider samples are
    rounded by the conversion to binary64 and can reach it.) *)
Theorem scale_signal_range (a : audio) :
  1 <= sample_width a <= 54 ->
  Forall (fun s => - 2 ^ (sample_width a - 1) <= s < 2 ^ (sample_width a - 1))
         (signal a) ->
  Forall (fun q => (-1 <= q /\ q < 1)%Q) (scale_signal a).
Proof.
  intros Hw Hs. unfold scale_signal.
  apply Forall_map. apply Forall_forall. intros s Hin.
  pose proof (proj1 (Forall_forall _ _) Hs s Hin) as Hb. cbv beta in Hb.
  assert (Hp : 2 ^ (sample_width a - 1) <= 2 ^ 53)
    by (apply Z.pow_le_mono_r; lia).
  assert (HP : 0 < 2 ^ (sample_width a - 1))
    by (apply Z.pow_pos_nonneg; lia).
  pose proof (scale_sample_exact (sample_width a) s ltac:(lia) ltac:(lia))
    as E.
  pose proof (scaled_sample_range s (2 ^ (sample_width a - 1)) HP Hb)
    as [H1 H2].
  split.
  - rewrite E. exact H1.
  - rewrite E. exact H2.
Qed.

Lemma scale_signal_range_witness :
  1 <= 16 <= 54 /\
  Forall (fun s => - 2 ^ (16 - 1) <= s < 2 ^ (16 - 1)) [32767; -32768; 0] /\
  Forall (fun q => (-1 <= q /\ q < 1)%Q)
         (scale_signal (mk_audio [32767; -32768; 0] 8000 16 1)).
Proof.
  assert (H1 : 1 <= 16 <= 54) by lia.
  assert (H2 : Forall (fun s => - 2 ^ (16 - 1) <= s < 2 ^ (16 - 1))
                      [32767; -32768; 0]).
  { repeat constructor; try discriminate; reflexivity. }
  split; [exact H1|split; [exact H2|]].
  exact (scale_signal_range (mk_audio [32767; -32768; 0] 8000 16 1) H1 H2).
Defined.

Section DownmixFacts.

(** The truncated mean of a row lies between the bounds of its values. *)
Lemma quot_mean_bounds (lo hi S n : Z) :
  1 <= n -> n * lo <= S <= n * hi -> lo <= Z.quot S n <= hi.
Proof.
  intros Hn HS.
  destruct (Z_lt_ge_dec S 0) as [Hneg|Hpos].
  - assert (E : Z.quot S n = - ((- S) / n)).
    { rewrite <- (Z.opp_involutive S) at 1. rewrite Z.quot_opp_l by lia.
      rewrite Z.quot_div_nonneg by lia. reflexivity. }
    rewrite E.
    assert (Hq0 : 0 <= (- S) / n) by (apply Z.div_pos; lia).
    split.
    + assert ((- S) / n <= - lo); [|lia].
      apply Z.div_le_upper_bound; lia.
    + destruct (Z_lt_ge_dec hi 0) as [Hh|Hh]; [|lia].
      assert (- hi <= (- S) / n); [|lia].
      apply Z.div_le_lower_bound; lia.
  - rewrite Z.quot_div_nonneg by lia.
    assert (Hq0 : 0 <= S / n) by (apply Z.div_pos; lia).
    split.
    + destruct (Z_lt_ge_dec 0 lo) as [Hl|Hl]; [|lia].
      apply Z.div_le_lower_bound; lia.
    + apply Z.div_le_upper_bound; lia.
Qed.

(** The value [load_wav] keeps for one row of a multi-channel file. *)
Lemma mean_cast_quot (row : list Z) :
  1 <= Z.of_nat (length row) <= 2 ^ 16 ->
  Forall (fun v => - 2 ^ 31 <= v <= 2 ^ 31) row ->
  mean_cast row = Z.quot (sum_Z row) (Z.of_nat (length row)).
Proof.
  intros Hc Hv. unfold mean_cast.
  pose proof (sum_Z_bounds (- 2 ^ 31) (2 ^ 31) row Hv) as Hb.
  apply to_int_div_quot; [exact Hc|].
  set (n := Z.of_nat (length row)) in *. clearbody n.
  set (S := sum_Z row) in *. clearbody S. lia.
Qed.

End DownmixFacts.

Section LoaderFacts.

Context {segment : Type}.
Variable pydub : pydub_api segment.
Variable wav_read : string -> attempt wav_file.
Variable from_file : string -> attempt segment.
Variable isfile : string -> bool.
Variable magic_from_file : string -> attempt string.

(** The keys of the dictionary of loaders. *)
Lemma lookup_loaders (ftype : string) :
  lookup ftype (loaders pydub wav_read from_file isfile)
  = if String.eqb ftype "audio/x-wav" then Some (load_wav wav_read)
    else if String.eqb ftype "audio/mpeg"
         then Some (load_pydub pydub from_file isfile)
    else if String.eqb ftype "audio/x-flac"
         then Some (load_pydub pydub from_file isfile)
    else None.
Proof. reflexivity. Qed.

(** A file that [load_audio] returns a dictionary for leaves no log. *)
Lemma load_audio_done_log (filename : string) (a : audio) :
  fst (load_audio pydub wav_read from_file isfile magic_from_file filename)
  = Done a ->
  snd (load_audio pydub wav_read from_file isfile magic_from_file filename)
  = [].
Proof.
  unfold load_audio.
  destruct (magic_from_file filename) as [ftype|e]; [|reflexivity].
  destruct (lookup ftype _) as [loader|]; [|reflexivity].
  destruct (loader filename) as [a'|[msg| | | |cls]];
    cbn [fst snd]; try reflexivity; discriminate.
Qed.

End LoaderFacts.

(** X15.  [load_audio] on a WAV file of several channels (at most [2^16]
    channels, samples within 32 bits) returns one channel, the width
    [8 * itemsize] and logs nothing; each returned sample is the sum of
    its row divided by the count of channels and truncated toward zero,
    and lies between the least and the greatest value of the row, so the
    cast back to the integer type cannot overflow. *)
Theorem load_audio_wav_downmix {segment : Type} (pydub : pydub_api segment)
    (wav_read : string -> attempt wav_file)
    (from_file : string -> attempt segment) (isfile : string -> bool)
    (magic_from_file : string -> attempt string)
    (filename : string) (rate itemsize : Z) (rows : list (list Z)) :
  magic_from_file filename = Done "audio/x-wav"%string ->
  wav_read filename = Done (mk_wav rate (Multi rows) itemsize) ->
  Forall (fun row => 1 <= Z.of_nat (length row) <= 2 ^ 16 /\
                     Forall (fun v => - 2 ^ 31 <= v <= 2 ^ 31) row) rows ->
  exists sig,
    load_audio pydub wav_read from_file isfile magic_from_file filename
    = (Done (mk_audio sig rate (itemsize * 8) 1), []) /\
    Forall2 (fun row s =>
               s = Z.quot (sum_Z row) (Z.of_nat (length row)) /\
               forall lo hi, Forall (fun v => lo <= v <= hi) row ->
                             lo <= s <= hi)
            rows sig.
Proof.
  intros Hm Hr Hrows. exists (map mean_cast rows). split.
  - unfold load_audio. rewrite Hm, lookup_loaders.
    cbn [String.eqb Ascii.eqb Bool.eqb]. unfold load_wav. rewrite Hr.
    reflexivity.
  - clear Hr. induction Hrows as [|row rest [Hc Hv] _ IH]; cbn [map]; constructor.
    + rewrite (mean_cast_quot row Hc Hv). split; [reflexivity|].
      intros lo hi Hb. apply quot_mean_bounds; [lia|].
      exact (sum_Z_bounds lo hi row Hb).
    + exact IH.
Qed.

Lemma load_audio_wav_downmix_witness :
  exists sig,
    load_audio mono_segments
      (fun _ => Done (mk_wav 44100 (Multi [[3; 4]; [-3; -4]; [7; 7]]) 2))
      (fun _ => Failed FileNotFoundError) (fun _ => false)
      (fun _ => Done "audio/x-wav"%string) "stereo.wav"
    = (Done (mk_audio sig 44100 (2 * 8) 1), []) /\
    Forall2 (fun row s =>
               s = Z.quot (sum_Z row) (Z.of_nat (length row)) /\
               forall lo hi, Forall (fun v => lo <= v <= hi) row ->
                             lo <= s <= hi)
            [[3; 4]; [-3; -4]; [7; 7]] sig.
Proof.
  assert (Hrows : Forall (fun row =>
                            1 <= Z.of_nat (length row) <= 2 ^ 16 /\
                            Forall (fun v => - 2 ^ 31 <= v <= 2 ^ 31) row)
                         [[3; 4]; [-3; -4]; [7; 7]]).
  { repeat constructor; discriminate. }
  exact (load_audio_wav_downmix mono_segments
           (fun _ => Done (mk_wav 44100 (Multi [[3; 4]; [-3; -4]; [7; 7]]) 2))
           (fun _ => Failed FileNotFoundError) (fun _ => false)
           (fun _ => Done "audio/x-wav"%string) "stereo.wav" 44100 2
           [[3; 4]; [-3; -4]; [7; 7]] eq_refl eq_refl Hrows).
Defined.

(** X16.  For a file whose MIME type is none of [audio/x-wav], [audio/mpeg]
    and [audio/x-flac], [load_audio] raises [IOError] with a message that
    names the type and the file, calls no loader and logs nothing. *)
Theorem load_audio_unsupported {segment : Type} (pydub : pydub_api segment)
    (wav_read : string -> attempt wav_file)
    (from_file : string -> attempt segment) (isfile : string -> bool)
    (magic_from_file : string -> attempt string)
    (filename ftype : string) :
  magic_from_file filename = Done ftype ->
  ftype <> "audio/x-wav"%string -> ftype <> "audio/mpeg"%string ->
  ftype <> "audio/x-flac"%string ->
  load_audio pydub wav_read from_file isfile magic_from_file filename
  = (Failed (IOError
             (String.append "No loader available for filetype ("
                (String.append ftype
                   (String.append ") for file: " filename)))), []).
Proof.
  intros Hm H1 H2 H3. unfold load_audio. rewrite Hm, lookup_loaders.
  apply String.eqb_neq in H1, H2, H3. rewrite H1, H2, H3. reflexivity.
Qed.

Lemma load_audio_unsupported_witness :
  load_audio mono_segments (fun _ => Failed (OtherError "ValueError"))
    (fun _ => Failed FileNotFoundError) (fun _ => true)
    (fun _ => Done "text/plain"%string) "notes.txt"
  = (Failed (IOError
             "No loader available for filetype (text/plain) for file: notes.txt"),
     []).
Proof.
  exact (load_audio_unsupported mono_segments
           (fun _ => Failed (OtherError "ValueError"))
           (fun _ => Failed FileNotFoundError) (fun _ => true)
           (fun _ => Done "text/plain"%string) "notes.txt" "text/plain"
           eq_refl
           ltac:(discriminate) ltac:(discriminate) ltac:(discriminate)).
Defined.

(** X17.  An MP3 or FLAC file for which pydub raises [FileNotFoundError]:
    when the file exists, [load_audio] raises [DependencyError] and logs
    the missing-dependency message; when it does not, the
    [FileNotFoundError] itself is raised and the plain failure message is
    logged. *)
Theorem load_audio_missing_decoder {segment : Type}
    (pydub : pydub_api segment)
    (wav_read : string -> attempt wav_file)
    (from_file : string -> attempt segment) (isfile : string -> bool)
    (magic_from_file : string -> attempt string)
    (filename ftype : string) :
  magic_from_file filename = Done ftype ->
  ftype = "audio/mpeg"%string \/ ftype = "audio/x-flac"%string ->
  from_file filename = Failed FileNotFoundError ->
  load_audio pydub wav_read from_file isfile magic_from_file filename
  = if isfile filename
    then (Failed DependencyError, [LogMissingDependency filename ftype])
    else (Failed FileNotFoundError, [LogLoadFailure filename ftype]).
Proof.
  intros Hm Ht Hf. unfold load_audio. rewrite Hm, lookup_loaders.
  assert (E : (if String.eqb ftype "audio/x-wav"
               then Some (load_wav wav_read)
               else if String.eqb ftype "audio/mpeg"
                    then Some (load_pydub pydub from_file isfile)
               else if String.eqb ftype "audio/x-flac"
                    then Some (load_pydub pydub from_file isfile)
               else None)
              = Some (load_pydub pydub from_file isfile)).
  { destruct Ht as [-> | ->]; reflexivity. }
  rewrite E. unfold load_pydub. rewrite Hf.
  destruct (isfile filename); reflexivity.
Qed.

Lemma load_audio_missing_decoder_witness :
  load_audio mono_segments (fun _ => Failed (OtherError "ValueError"))
    (fun _ => Failed FileNotFoundError) (fun _ => true)
    (fun _ => Done "audio/mpeg"%string) "song.mp3"
  = (Failed DependencyError, [LogMissingDependency "song.mp3" "audio/mpeg"]).
Proof.
  exact (load_audio_missing_decoder mono_segments
           (fun _ => Failed (OtherError "ValueError"))
           (fun _ => Failed FileNotFoundError) (fun _ => true)
           (fun _ => Done "audio/mpeg"%string) "song.mp3" "audio/mpeg"
           eq_refl (or_introl eq_refl) eq_refl).
Defined.

(** X18.  What [load_audio] logs, for every file: at most one record;
    nothing when it returns and nothing when [KeyboardInterrupt] is
    raised; a record always names this file and its MIME type, the
    missing-dependency message goes with a raised [DependencyError], and
    the plain failure message with any other exception. *)
Theorem load_audio_log {segment : Type} (pydub : pydub_api segment)
    (wav_read : string -> attempt wav_file)
    (from_file : string -> attempt segment) (isfile : string -> bool)
    (magic_from_file : string -> attempt string) (filename : string) :
  let r :=
    load_audio pydub wav_read from_file isfile magic_from_file filename in
  (length (snd r) <= 1)%nat /\
  (forall a, fst r = Done a -> snd r = []) /\
  (fst r = Failed KeyboardInterrupt -> snd r = []) /\
  (forall entry, In entry (snd r) ->
     exists ftype,
       magic_from_file filename = Done ftype /\
       (entry = LogMissingDependency filename ftype /\
        fst r = Failed DependencyError \/
        entry = LogLoadFailure filename ftype /\
        exists e, fst r = Failed e /\ e <> DependencyError /\
                  e <> KeyboardInterrupt)).
Proof.
  intros r. unfold r, load_audio.
  destruct (magic_from_file filename) as [ftype|e].
  2:{ cbn [fst snd length In]. split; [lia|]. split; [reflexivity|].
      split; [reflexivity|]. intros entry []. }
  destruct (lookup ftype _) as [loader|].
  2:{ cbn [fst snd length In]. split; [lia|]. split; [reflexivity|].
      split; [reflexivity|]. intros entry []. }
  destruct (loader filename) as [a'|[msg| | | |cls]]; cbn [fst snd length In].
  - split; [lia|]. split; [reflexivity|]. split; [reflexivity|].
    intros entry [].
  - split; [lia|]. split; [discriminate|]. split; [discriminate|].
    intros entry [<-|[]]. exists ftype. split; [reflexivity|]. right.
    split; [reflexivity|]. exists (IOError msg).
    split; [reflexivity|]. split; discriminate.
  - split; [lia|]. split; [discriminate|]. split; [discriminate|].
    intros entry [<-|[]]. exists ftype. split; [reflexivity|]. left.
    split; reflexivity.
  - split; [lia|]. split; [discriminate|]. split; [discriminate|].
    intros entry [<-|[]]. exists ftype. split; [reflexivity|]. right.
    split; [reflexivity|]. exists FileNotFoundError.
    split; [reflexivity|]. split; discriminate.
  - split; [lia|]. split; [reflexivity|]. split; [reflexivity|].
    intros entry [].
  - split; [lia|]. split; [discriminate|]. split; [discriminate|].
    intros entry [<-|[]]. exists ftype. split; [reflexivity|]. right.
    split; [reflexivity|]. exists (OtherError cls).
    split; [reflexivity|]. split; discriminate.
Qed.

(** X19.  [get_audio_features] on a file name that fails to load raises the
    loader's exception for every feature type and keyword arguments, an
    unsupported feature type included: line 177 runs before the feature
    type is looked at. *)
Theorem path_load_failure {segment : Type} (pydub : pydub_api segment)
    (wav_read : string -> attempt wav_file)
    (from_file : string -> attempt segment) (isfile : string -> bool)
    (magic_from_file : string -> attempt string)
    (filename feature_type : string) (kw : kwargs) (e : load_exn) :
  fst (load_audio pydub wav_read from_file isfile magic_from_file filename)
  = Failed e ->
  get_audio_features_input pydub wav_read from_file isfile magic_from_file
    (Path filename) feature_type kw
  = (Raised (LoadExn e),
     snd (load_audio pydub wav_read from_file isfile magic_from_file
            filename)).
Proof.
  intros Hl. unfold get_audio_features_input.
  destruct (load_audio _ _ _ _ _ filename) as [[a|e'] log]; cbn [fst snd] in *.
  - discriminate.
  - injection Hl as ->. reflexivity.
Qed.

Lemma path_load_failure_witness :
  get_audio_features_input mono_segments
    (fun _ => Failed (OtherError "ValueError"))
    (fun _ => Failed FileNotFoundError) (fun _ => true)
    (fun _ => Done "text/plain"%string) (Path "notes.txt") "bogus"
    (mk_kwargs None None None)
  = (Raised (LoadExn (IOError
       "No loader available for filetype (text/plain) for file: notes.txt")),
     []).
Proof.
  exact (path_load_failure mono_segments
           (fun _ => Failed (OtherError "ValueError"))
           (fun _ => Failed FileNotFoundError) (fun _ => true)
           (fun _ => Done "text/plain"%string) "notes.txt" "bogus"
           (mk_kwargs None None None)
           (IOError
              "No loader available for filetype (text/plain) for file: notes.txt")
           eq_refl).
Defined.

(** X20.  [get_audio_features] on a file name that loads is
    [get_audio_features] on the dictionary [load_audio] returns, and
    nothing is logged. *)
Theorem path_as_buffer {segment : Type} (pydub : pydub_api segment)
    (wav_read : string -> attempt wav_file)
    (from_file : string -> attempt segment) (isfile : string -> bool)
    (magic_from_file : string -> attempt string)
    (filename feature_type : string) (kw : kwargs) (a : audio) :
  fst (load_audio pydub wav_read from_file isfile magic_from_file filename)
  = Done a ->
  get_audio_features_input pydub wav_read from_file isfile magic_from_file
    (Path filename) feature_type kw
  = get_audio_features_input pydub wav_read from_file isfile magic_from_file
      (Buffer a) feature_type kw.
Proof.
  intros Hl.
  pose proof (load_audio_done_log pydub wav_read from_file isfile
                magic_from_file filename a Hl) as Hlog.
  unfold get_audio_features_input.
  destruct (load_audio _ _ _ _ _ filename) as [[a'|e'] log]; cbn [fst snd] in *.
  - injection Hl as ->. rewrite Hlog. reflexivity.
  - discriminate.
Qed.

Lemma path_as_buffer_witness :
  get_audio_features_input mono_segments
    (fun _ => Done (mk_wav 8000 (Mono [1; -2; 3]) 2))
    (fun _ => Failed FileNotFoundError) (fun _ => true)
    (fun _ => Done "audio/x-wav"%string) (Path "mono.wav") "spec"
    (mk_kwargs None None None)
  = get_audio_features_input mono_segments
      (fun _ => Done (mk_wav 8000 (Mono [1; -2; 3]) 2))
      (fun _ => Failed FileNotFoundError) (fun _ => true)
      (fun _ => Done "audio/x-wav"%string)
      (Buffer (mk_audio [1; -2; 3] 8000 (2 * 8) 1)) "spec"
      (mk_kwargs None None None).
Proof.
  exact (path_as_buffer mono_segments
           (fun _ => Done (mk_wav 8000 (Mono [1; -2; 3]) 2))
           (fun _ => Failed FileNotFoundError) (fun _ => true)
           (fun _ => Done "audio/x-wav"%string) "mono.wav" "spec"
           (mk_kwargs None None None) (mk_audio [1; -2; 3] 8000 (2 * 8) 1)
           eq_refl).
Defined.
